(** * Sabor & Arte: the Express/Supabase order backend

    A shallow embedding of the two server entry points of the repository
    ([src/index.js] and the earlier, commented form of the same server)
    and the properties of the request gate, the order submission and
    history handlers, the registration handler and the menu grouping.

    Definitions:
    - [Json]      : JavaScript values as they arrive in a parsed request
                    body, [JSON.stringify] and [JSON.parse];
    - [Js]        : the JavaScript primitives the handlers rely on
                    (truthiness, [split], [includes], property lookup,
                    the members of [Object.prototype]);
    - [Supabase]  : the world the handlers talk to (auth service, tables,
                    query primitives, call trace), requests and replies;
    - [IndexJs]   : the handlers of [src/index.js];
    - [ServerJs]  : the handlers of the second entry point;
    - [ZNumber], [Fixtures] : integers as numbers, concrete services,
                    stores and requests.

    Properties:
    - [JsonFacts], [ZNumberFacts] : parsing inverts serialisation;
    - [Gateway]      : requests without a usable token;
    - [Submission]   : who owns a stored order, and empty carts;
    - [OrderBy], [History] : the order history and the round trip;
    - [Registration] : a refused sign-up;
    - [Menu]         : grouping by category;
    - [Credentials], [Orders], [Accounts], [MenuGroups], [Reading] :
                       error and edge behaviour of each route;
    - [Sessions]     : what sequences of requests keep true. *)

From Stdlib Require Import String Ascii List Bool ZArith NArith Lia.
From Stdlib Require Import Sorting.Sorted Sorting.Permutation.
From Stdlib Require Import DecimalString DecimalZ.
Import ListNotations.

Open Scope list_scope.
Open Scope string_scope.

(** The double quote character, written by its code. *)
Definition dquote : ascii := "034"%char.

(* ================================================================== *)
(** ** Numbers

    The handlers never compute with numbers: they test them for
    truthiness and hand them to [JSON.stringify] / [JSON.parse].  The
    number type is therefore an interface; [ZNumber] below instantiates it
    with integers printed in plain decimal. *)

Class NumberOps : Type := {
  num : Type;
  (** [Number::toString], as used by [JSON.stringify]. *)
  num_to_string : num -> string;
  (** The value of a JSON number token, [None] when the token does not
      follow the JSON number grammar. *)
  num_of_string : string -> option num;
  (** [+0], [-0] and [NaN] are the falsy numbers. *)
  num_is_falsy : num -> bool
}.

Definition is_digit (c : ascii) : bool :=
  (48 <=? nat_of_ascii c)%nat && (nat_of_ascii c <=? 57)%nat.

(** Characters that may start a JSON number token. *)
Definition is_num_start (c : ascii) : bool :=
  (c =? "-")%char || is_digit c.

(** Characters that may occur in a JSON number token. *)
Definition is_num_char (c : ascii) : bool :=
  is_num_start c || (c =? "+")%char || (c =? ".")%char
  || (c =? "e")%char || (c =? "E")%char.

Fixpoint all_chars (p : ascii -> bool) (s : string) : bool :=
  match s with
  | EmptyString => true
  | String c r => p c && all_chars p r
  end.

(** What the round trip needs of number formatting: a printed number is a
    number token, and reading it gives the number back.  JavaScript's
    numbers as a whole do not satisfy it: [JSON.stringify] writes [null]
    for [NaN] and the infinities (a body holding [1e999] has one) and [0]
    for [-0].  Finite doubles other than [-0] do, and so do the integers
    of [ZNumber]; a statement that assumes these laws speaks of bodies
    whose numbers are of that kind. *)
Class NumberLaws `{NumberOps} : Prop := {
  num_print_parse : forall n, num_of_string (num_to_string n) = Some n;
  num_print_shape : forall n, exists c r,
      num_to_string n = String c r /\ is_num_start c = true
      /\ all_chars is_num_char r = true
}.

(* ================================================================== *)
(** ** JSON values, [JSON.stringify] and [JSON.parse] *)

Module Json.
Section WithNumbers.
Context `{NumberOps}.

(** A value of a request body parsed by [express.json()].  Strings are
    sequences of 8-bit units (the UTF-8 encoding of the text); objects
    keep their properties in enumeration order. *)
#[local] Unset Elimination Schemes.
Inductive JsVal : Type :=
| JNull
| JBool (b : bool)
| JNum (n : num)
| JStr (s : string)
| JArr (xs : list JsVal)
| JObj (kvs : list (string * JsVal)).
#[local] Set Elimination Schemes.

(** *** Serialisation *)

Definition hex_digit (n : N) : ascii :=
  if (n <? 10)%N then ascii_of_N (48 + n) else ascii_of_N (87 + n).

(** [QuoteJSONString] on one character. *)
Definition quote_char (c : ascii) : string :=
  if (c =? dquote)%char then String "\" (String dquote EmptyString)
  else if (c =? "\")%char then "\\"
  else if (c =? "008")%char then "\b"
  else if (c =? "009")%char then "\t"
  else if (c =? "010")%char then "\n"
  else if (c =? "012")%char then "\f"
  else if (c =? "013")%char then "\r"
  else if (N_of_ascii c <? 32)%N then
    "\u00" ++ String (hex_digit (N_of_ascii c / 16))
                (String (hex_digit (N_of_ascii c mod 16)) EmptyString)
  else String c EmptyString.

(** The characters of a string literal and its closing quote, followed
    by [k]. *)
Fixpoint quote_chars (s : string) (k : string) : string :=
  match s with
  | EmptyString => String dquote k
  | String c r => quote_char c ++ quote_chars r k
  end.

Definition quote (s : string) (k : string) : string :=
  String dquote (quote_chars s k).

Section Emit.
Variable emit : JsVal -> string -> string.

(** The elements after the first one and the closing bracket. *)
Fixpoint emit_elements (k : string) (xs : list JsVal) : string :=
  match xs with
  | [] => String "]" k
  | x :: r => String "," (emit x (emit_elements k r))
  end.

Definition emit_member (kv : string * JsVal) (k : string) : string :=
  quote (fst kv) (String ":" (emit (snd kv) k)).

Fixpoint emit_members (k : string) (kvs : list (string * JsVal)) : string :=
  match kvs with
  | [] => String "}" k
  | kv :: r => String "," (emit_member kv (emit_members k r))
  end.
End Emit.

(** [emit v k] is the text of [v] followed by [k]. *)
Fixpoint emit (v : JsVal) (k : string) {struct v} : string :=
  match v with
  | JNull => "null" ++ k
  | JBool true => "true" ++ k
  | JBool false => "false" ++ k
  | JNum n => num_to_string n ++ k
  | JStr s => quote s k
  | JArr xs =>
      String "["
        match xs with
        | [] => String "]" k
        | x :: r => emit x (emit_elements emit k r)
        end
  | JObj kvs =>
      String "{"
        match kvs with
        | [] => String "}" k
        | kv :: r =>
            quote (fst kv)
              (String ":" (emit (snd kv) (emit_members emit k r)))
        end
  end.

(** [JSON.stringify(v)] with no replacer and no indentation. *)
Definition stringify (v : JsVal) : string := emit v EmptyString.

(** *** Parsing *)

Definition is_ws (c : ascii) : bool :=
  (c =? " ")%char || (c =? "009")%char || (c =? "010")%char
  || (c =? "013")%char.

Fixpoint skip_ws (s : string) : string :=
  match s with
  | EmptyString => EmptyString
  | String c r => if is_ws c then skip_ws r else s
  end.

(** [expect p s] removes the prefix [p] from [s]. *)
Fixpoint expect (p s : string) : option string :=
  match p, s with
  | EmptyString, _ => Some s
  | String a p', String b s' => if (a =? b)%char then expect p' s' else None
  | String _ _, EmptyString => None
  end.

Definition hex_val (c : ascii) : option N :=
  let n := N_of_ascii c in
  if is_digit c then Some (n - 48)%N
  else if ((97 <=? n) && (n <=? 102))%N then Some (n - 87)%N
  else if ((65 <=? n) && (n <=? 70))%N then Some (n - 55)%N
  else None.

Definition hex4 (a b c d : ascii) : option N :=
  match hex_val a, hex_val b, hex_val c, hex_val d with
  | Some x, Some y, Some z, Some w => Some (((x * 16 + y) * 16 + z) * 16 + w)%N
  | _, _, _, _ => None
  end.

(** The UTF-8 bytes of a 16-bit code unit. *)
Definition utf8_of_code (n : N) : string :=
  if (n <? 128)%N then String (ascii_of_N n) EmptyString
  else if (n <? 2048)%N then
    String (ascii_of_N (192 + n / 64))
      (String (ascii_of_N (128 + n mod 64)) EmptyString)
  else
    String (ascii_of_N (224 + n / 4096))
      (String (ascii_of_N (128 + (n / 64) mod 64))
         (String (ascii_of_N (128 + n mod 64)) EmptyString)).

Definition unescape (c : ascii) : option ascii :=
  if (c =? dquote)%char then Some dquote
  else if (c =? "\")%char then Some "\"%char
  else if (c =? "/")%char then Some "/"%char
  else if (c =? "b")%char then Some "008"%char
  else if (c =? "t")%char then Some "009"%char
  else if (c =? "n")%char then Some "010"%char
  else if (c =? "f")%char then Some "012"%char
  else if (c =? "r")%char then Some "013"%char
  else None.

Definition prepend (p : string) (r : option (string * string))
  : option (string * string) :=
  match r with
  | Some (s, rest) => Some (p ++ s, rest)
  | None => None
  end.

(** The characters of a string literal up to its closing quote. *)
Fixpoint parse_chars (s : string) : option (string * string) :=
  match s with
  | EmptyString => None
  | String c r =>
      if (c =? dquote)%char then Some (EmptyString, r)
      else if (c =? "\")%char then
        match r with
        | EmptyString => None
        | String e r1 =>
            if (e =? "u")%char then
              match r1 with
              | String h1 (String h2 (String h3 (String h4 r2))) =>
                  match hex4 h1 h2 h3 h4 with
                  | Some n => prepend (utf8_of_code n) (parse_chars r2)
                  | None => None
                  end
              | _ => None
              end
            else
              match unescape e with
              | Some c' => prepend (String c' EmptyString) (parse_chars r1)
              | None => None
              end
        end
      else if (N_of_ascii c <? 32)%N then None
      else prepend (String c EmptyString) (parse_chars r)
  end.

(** The longest prefix made of number characters, and what follows. *)
Fixpoint span_num (s : string) : string * string :=
  match s with
  | EmptyString => (EmptyString, EmptyString)
  | String c r =>
      if is_num_char c then
        let (tok, rest) := span_num r in (String c tok, rest)
      else (EmptyString, s)
  end.

(** [CreateDataProperty] on the object being built: a repeated key keeps
    its position and takes the new value.  (JavaScript enumerates
    integer-like keys first; that reordering is not modelled, it does not
    change which properties an object has.) *)
Fixpoint obj_set (k : string) (v : JsVal) (o : list (string * JsVal))
  : list (string * JsVal) :=
  match o with
  | [] => [(k, v)]
  | (k', v') :: r =>
      if (k' =? k)%string then (k', v) :: r else (k', v') :: obj_set k v r
  end.

(** Recursive descent over the JSON grammar; [fuel] bounds the number of
    values, elements and members visited. *)
Fixpoint parse_value (fuel : nat) (s : string) : option (JsVal * string) :=
  match fuel with
  | O => None
  | S fuel =>
      match skip_ws s with
      | EmptyString => None
      | String c r =>
          if (c =? "n")%char then option_map (pair JNull) (expect "ull" r)
          else if (c =? "t")%char then
            option_map (pair (JBool true)) (expect "rue" r)
          else if (c =? "f")%char then
            option_map (pair (JBool false)) (expect "alse" r)
          else if (c =? dquote)%char then
            match parse_chars r with
            | Some (str, r') => Some (JStr str, r')
            | None => None
            end
          else if (c =? "[")%char then
            match skip_ws r with
            | String c' r' =>
                if (c' =? "]")%char then Some (JArr [], r')
                else parse_elements fuel r []
            | EmptyString => None
            end
          else if (c =? "{")%char then
            match skip_ws r with
            | String c' r' =>
                if (c' =? "}")%char then Some (JObj [], r')
                else parse_members fuel r []
            | EmptyString => None
            end
          else if is_num_start c then
            let (tok, r') := span_num (String c r) in
            match num_of_string tok with
            | Some n => Some (JNum n, r')
            | None => None
            end
          else None
      end
  end

with parse_elements (fuel : nat) (s : string) (acc : list JsVal)
  : option (JsVal * string) :=
  match fuel with
  | O => None
  | S fuel =>
      match parse_value fuel s with
      | None => None
      | Some (v, r) =>
          match skip_ws r with
          | EmptyString => None
          | String c r' =>
              if (c =? ",")%char then parse_elements fuel r' (acc ++ [v])%list
              else if (c =? "]")%char then Some (JArr (acc ++ [v])%list, r')
              else None
          end
      end
  end

with parse_members (fuel : nat) (s : string) (acc : list (string * JsVal))
  : option (JsVal * string) :=
  match fuel with
  | O => None
  | S fuel =>
      match skip_ws s with
      | EmptyString => None
      | String c r =>
          if (c =? dquote)%char then
            match parse_chars r with
            | None => None
            | Some (key, r1) =>
                match skip_ws r1 with
                | EmptyString => None
                | String c1 r2 =>
                    if (c1 =? ":")%char then
                      match parse_value fuel r2 with
                      | None => None
                      | Some (v, r3) =>
                          match skip_ws r3 with
                          | EmptyString => None
                          | String c3 r4 =>
                              if (c3 =? ",")%char then
                                parse_members fuel r4 (obj_set key v acc)
                              else if (c3 =? "}")%char then
                                Some (JObj (obj_set key v acc), r4)
                              else None
                          end
                      end
                    else None
                end
            end
          else None
      end
  end.

(** [JSON.parse(s)]: one value, then only white space.  [None] stands for
    the [SyntaxError] the built-in throws. *)
Definition parse (s : string) : option JsVal :=
  match parse_value (S (String.length s)) s with
  | Some (v, rest) =>
      match skip_ws rest with
      | EmptyString => Some v
      | String _ _ => None
      end
  | None => None
  end.

(** *** Genuine values

    A value that [JSON.parse] produced has no object with a repeated
    property name. *)

Fixpoint distinct (ks : list string) : bool :=
  match ks with
  | [] => true
  | k :: r => negb (existsb (String.eqb k) r) && distinct r
  end.

Fixpoint well_formed (v : JsVal) : bool :=
  match v with
  | JArr xs => forallb well_formed xs
  | JObj kvs =>
      distinct (map fst kvs) && forallb (fun kv => well_formed (snd kv)) kvs
  | _ => true
  end.

(** The number of values, elements and members of [v]: the fuel its text
    takes to parse. *)
Fixpoint size (v : JsVal) : nat :=
  match v with
  | JArr xs => S (list_sum (map (fun x => S (size x)) xs))
  | JObj kvs => S (list_sum (map (fun kv => S (size (snd kv))) kvs))
  | _ => 1
  end.

(** Structural induction that reaches the elements of arrays and the
    members of objects. *)
Definition JsVal_ind (P : JsVal -> Prop)
  (f_null : P JNull)
  (f_bool : forall b, P (JBool b))
  (f_num : forall n, P (JNum n))
  (f_str : forall s, P (JStr s))
  (f_arr : forall xs, Forall P xs -> P (JArr xs))
  (f_obj : forall kvs, Forall (fun kv => P (snd kv)) kvs -> P (JObj kvs))
  : forall v, P v :=
  fix go (v : JsVal) : P v :=
    match v with
    | JNull => f_null
    | JBool b => f_bool b
    | JNum n => f_num n
    | JStr s => f_str s
    | JArr xs =>
        f_arr xs
          ((fix all (l : list JsVal) : Forall P l :=
              match l with
              | [] => Forall_nil P
              | x :: r => Forall_cons x (go x) (all r)
              end) xs)
    | JObj kvs =>
        f_obj kvs
          ((fix all (l : list (string * JsVal))
              : Forall (fun kv => P (snd kv)) l :=
              match l with
              | [] => Forall_nil _
              | kv :: r =>
                  Forall_cons (P := fun kv => P (snd kv)) kv (go (snd kv))
                    (all r)
              end) kvs)
    end.

End WithNumbers.
End Json.

(* ================================================================== *)
(** ** JavaScript primitives used by the handlers *)

Module Js.
Import Json.
Section WithNumbers.
Context `{NumberOps}.

(** [ToBoolean]; [None] is [undefined]. *)
Definition truthy (v : option JsVal) : bool :=
  match v with
  | None => false
  | Some JNull => false
  | Some (JBool b) => b
  | Some (JNum n) => negb (num_is_falsy n)
  | Some (JStr EmptyString) => false
  | Some (JStr (String _ _)) => true
  | Some (JArr _) => true
  | Some (JObj _) => true
  end.

(** [o[k]] on a parsed body: the first property named [k]. *)
Fixpoint get (k : string) (o : list (string * JsVal)) : option JsVal :=
  match o with
  | [] => None
  | (k', v) :: r => if (k' =? k)%string then Some v else get k r
  end.

(** [JSON.stringify(x)]; [undefined] stays [undefined]. *)
Definition JSON_stringify (x : option JsVal) : option string :=
  option_map stringify x.

(** [JSON.parse(x)] on a text column: [null] is first converted to the
    string [null]. *)
Definition JSON_parse (x : option string) : option JsVal :=
  match x with
  | None => Some JNull
  | Some s => parse s
  end.

End WithNumbers.

(** [s.split(sep)] for a one-character separator. *)
Fixpoint split (sep : ascii) (s : string) : list string :=
  match s with
  | EmptyString => [EmptyString]
  | String c r =>
      if (c =? sep)%char then EmptyString :: split sep r
      else match split sep r with
           | h :: t => String c h :: t
           | [] => [String c EmptyString]
           end
  end.

(** [authHeader && authHeader.split(' ')[1]]: a missing or empty header
    is the result itself, otherwise the second segment ([None] is
    [undefined]). *)
Definition token_of (authHeader : option string) : option string :=
  match authHeader with
  | None => None
  | Some EmptyString => Some EmptyString
  | Some h => nth_error (split " " h) 1
  end.

(** [hay.includes(needle)]. *)
Fixpoint includes (needle hay : string) : bool :=
  if prefix needle hay then true
  else match hay with
       | EmptyString => false
       | String _ r => includes needle r
       end.

(** The names [{}] inherits from [Object.prototype]: [acc[k]] finds a
    function (or the prototype itself) under each of them. *)
Definition object_prototype_keys : list string :=
  [ "constructor"; "__defineGetter__"; "__defineSetter__"; "hasOwnProperty";
    "__lookupGetter__"; "__lookupSetter__"; "isPrototypeOf";
    "propertyIsEnumerable"; "toString"; "valueOf"; "__proto__";
    "toLocaleString" ].

Definition inherited (k : string) : bool :=
  existsb (String.eqb k) object_prototype_keys.

(** Exceptions that escape a handler. *)
Inductive JsError : Type :=
| SyntaxError
| TypeError (message : string).

(** The message of the [TypeError] raised by [const { name, ... } =
    req.body] when [req.body] is [undefined]. *)
Definition undefined_body (name : string) : string :=
  "Cannot destructure property '" ++ name
  ++ "' of 'req.body' as it is undefined.".

End Js.

(* ================================================================== *)
(** ** The Supabase client: auth service, tables and call trace *)

Module Supabase.
Import Json.

(** [order(column)] of the query builder: a stable sort. *)
Section Ordering.
Variable A : Type.
Variable leb : A -> A -> bool.

(** [insert_by x l] puts [x] in front of the first element it may
    precede, so rows that compare equal keep their stored order. *)
Fixpoint insert_by (x : A) (l : list A) : list A :=
  match l with
  | [] => [x]
  | y :: r => if leb x y then x :: y :: r else y :: insert_by x r
  end.

Definition order_by (l : list A) : list A :=
  fold_right insert_by [] l.
End Ordering.
Arguments insert_by {A} leb x l.
Arguments order_by {A} leb l.

Section WithNumbers.
Context `{NumberOps}.

(** [{ data: { user }, error }] of [auth.getUser]. *)
Record GetUserResponse : Type := {
  gu_error : option string;
  gu_user : option string          (* [user.id] *)
}.

(** [{ data: { user, session }, error }] of [auth.signUp]. *)
Record SignUpResponse : Type := {
  su_error : option string;        (* [error.message] *)
  su_user : option string;         (* [user.id] *)
  su_session : option string       (* [session.access_token] *)
}.

(** [{ data: { session }, error }] of [auth.signInWithPassword]. *)
Record SignInResponse : Type := {
  si_error : option string;
  si_session : option string
}.

Inductive Call : Type :=
| AuthGetUser (token : string)
| AuthSignUp (email password : option JsVal)
| AuthSignIn (email password : option JsVal)
| DbInsert (table : string)
| DbSelect (table : string).

(** The external service: what the auth endpoints answer, and which
    table calls come back with an error. *)
Record Service : Type := {
  getUser : string -> GetUserResponse;
  signUp : option JsVal -> option JsVal -> SignUpResponse;
  signInWithPassword : option JsVal -> option JsVal -> SignInResponse;
  db_error : Call -> bool
}.

(** Columns a handler supplies when it inserts into [pedidos]. *)
Record NovoPedido : Type := {
  user_id : string;
  items_json : option string;
  total : option JsVal;
  status : string;
  details_json : option string
}.

(** A stored [pedidos] row: generated id and timestamp, then the columns. *)
Record Pedido : Type := {
  id : Z;
  created_at : Z;
  cols : NovoPedido
}.

Record NovoFinalizado : Type := {
  f_user_id : string;
  f_nome : option JsVal;
  f_telefone : option JsVal;
  f_endereco : option JsVal;
  f_pagamento : option JsVal;
  f_observacoes : option JsVal;
  f_itens_json : option string;
  f_total : option JsVal
}.

Record Finalizado : Type := {
  f_id : Z;
  f_created_at : Z;
  f_cols : NovoFinalizado
}.

Record Perfil : Type := {
  pf_id : string;
  pf_nome : option JsVal;
  pf_email : option JsVal;
  pf_telefone : option JsVal
}.

Record MenuItem : Type := {
  m_id : Z;
  m_name : string;
  m_price : num;
  category : option string         (* [None] is SQL [NULL] *)
}.

Record World : Type := {
  perfis : list Perfil;
  pedidos : list Pedido;
  pedidos_finalizados : list Finalizado;
  menu : list MenuItem;
  next_id : Z;
  now : Z;
  trace : list Call
}.

Definition log (c : Call) (w : World) : World :=
  {| perfis := perfis w; pedidos := pedidos w;
     pedidos_finalizados := pedidos_finalizados w; menu := menu w;
     next_id := next_id w; now := now w;
     trace := (trace w ++ [c])%list |}.

(** *** Query primitives

    The tables live in the external store; the handlers use three of its
    primitives: insert one row and return it, filter by equality on a
    column, order by a column. *)

Section WithService.
Variable svc : Service.

(** [from('perfis').insert([row])]: [true] when the call succeeded. *)
Definition insert_perfil (row : Perfil) (w : World) : bool * World :=
  let w1 := log (DbInsert "perfis") w in
  if db_error svc (DbInsert "perfis") then (false, w1)
  else
    (true,
     {| perfis := (perfis w1 ++ [row])%list; pedidos := pedidos w1;
        pedidos_finalizados := pedidos_finalizados w1; menu := menu w1;
        next_id := next_id w1; now := now w1; trace := trace w1 |}).

(** [from('pedidos').insert([row]).select()]: the stored row, or [None]
    when the call came back with an error.  The store stamps the row with
    its clock, which moves on with every insert. *)
Definition insert_pedido (row : NovoPedido) (w : World)
  : option Pedido * World :=
  let w1 := log (DbInsert "pedidos") w in
  if db_error svc (DbInsert "pedidos") then (None, w1)
  else
    let p := {| id := next_id w1; created_at := now w1; cols := row |} in
    (Some p,
     {| perfis := perfis w1; pedidos := (pedidos w1 ++ [p])%list;
        pedidos_finalizados := pedidos_finalizados w1; menu := menu w1;
        next_id := (next_id w1 + 1)%Z; now := (now w1 + 1)%Z;
        trace := trace w1 |}).

Definition insert_finalizado (row : NovoFinalizado) (w : World)
  : option Finalizado * World :=
  let w1 := log (DbInsert "pedidos_finalizados") w in
  if db_error svc (DbInsert "pedidos_finalizados") then (None, w1)
  else
    let p := {| f_id := next_id w1; f_created_at := now w1; f_cols := row |} in
    (Some p,
     {| perfis := perfis w1; pedidos := pedidos w1;
        pedidos_finalizados := (pedidos_finalizados w1 ++ [p])%list;
        menu := menu w1;
        next_id := (next_id w1 + 1)%Z; now := (now w1 + 1)%Z;
        trace := trace w1 |}).

(** The columns named in [select('id, total, status, created_at,
    items_json')]. *)
Record PedidoCols : Type := {
  c_id : Z;
  c_total : option JsVal;
  c_status : string;
  c_created_at : Z;
  c_items_json : option string
}.

Definition project (p : Pedido) : PedidoCols :=
  {| c_id := id p; c_total := total (cols p); c_status := status (cols p);
     c_created_at := created_at p; c_items_json := items_json (cols p) |}.

(** [order('created_at', { ascending: false })]. *)
Definition newest_first (a b : Pedido) : bool :=
  (created_at b <=? created_at a)%Z.

(** [from('pedidos').select(...).eq('user_id', userId)
      .order('created_at', { ascending: false })]. *)
Definition select_pedidos (userId : string) (w : World)
  : option (list PedidoCols) * World :=
  let w1 := log (DbSelect "pedidos") w in
  if db_error svc (DbSelect "pedidos") then (None, w1)
  else
    (Some (map project
             (order_by newest_first
                (filter (fun p => (user_id (cols p) =? userId)%string)
                   (pedidos w1)))),
     w1).

(** [NULL] sorts last in ascending order. *)
Definition category_leb (a b : option string) : bool :=
  match a, b with
  | _, None => true
  | None, Some _ => false
  | Some x, Some y => String.leb x y
  end.

Definition category_eqb (a b : option string) : bool :=
  match a, b with
  | None, None => true
  | Some x, Some y => (x =? y)%string
  | _, _ => false
  end.

(** [order('category').order('id')]. *)
Definition by_category_then_id (a b : MenuItem) : bool :=
  if category_eqb (category a) (category b) then (m_id a <=? m_id b)%Z
  else category_leb (category a) (category b).

(** [from('menu').select('*').order('category').order('id')]. *)
Definition select_menu (w : World) : option (list MenuItem) * World :=
  let w1 := log (DbSelect "menu") w in
  if db_error svc (DbSelect "menu") then (None, w1)
  else (Some (order_by by_category_then_id (menu w1)), w1).

End WithService.

(** *** Requests and replies *)

(** [req.body] is what the JSON body parser left: the parsed object, or
    [undefined] ([None]) when the request carried no JSON body and the
    parser set nothing. *)
Record Request : Type := {
  headers : list (string * string);      (* names in lower case *)
  parsed : option (list (string * JsVal))
}.

(** The properties of [req.body] when it is an object. *)
Definition body (req : Request) : list (string * JsVal) :=
  match parsed req with
  | Some b => b
  | None => []
  end.

(** [req.headers[name]]. *)
Fixpoint header (name : string) (hs : list (string * string))
  : option string :=
  match hs with
  | [] => None
  | (n, v) :: r => if (n =? name)%string then Some v else header name r
  end.

(** An order of the history reply: the selected columns and the parsed
    [items]. *)
Record PedidoView : Type := {
  row : PedidoCols;
  items : JsVal
}.

(** [res.status(s).json(...)], by the shape of the JSON body. *)
Inductive Reply : Type :=
| ErrorJson (status : nat) (error : string)
| TokenJson (status : nat) (message token : string)
| PedidoJson (status : nat) (message : string) (pedido : Pedido)
| FinalizadoJson (status : nat) (message : string) (pedido : Finalizado)
| MenuJson (status : nat) (groups : list (string * list MenuItem))
| PedidosJson (status : nat) (orders : list PedidoView).

(** What a handler does with a request: it sends a reply, or an
    exception leaves it and nothing is sent. *)
Inductive Outcome : Type :=
| Sent (r : Reply)
| Thrown (e : Js.JsError).

(** A middleware either answers the request itself or calls [next()]
    after setting [req.userId]. *)
Inductive Gate : Type :=
| Stop (r : Reply)
| Next (userId : string).

End WithNumbers.
End Supabase.

(* ================================================================== *)
(** ** The handlers of [src/index.js] *)

Module IndexJs.
Import Json Js Supabase.
Section Handlers.
Context `{NumberOps}.
Variable svc : Service.

Definition requireAuth (req : Request) (w : World) : Gate * World :=
  let authHeader := header "authorization" (headers req) in
  let token := token_of authHeader in
  match token with
  | None | Some EmptyString => (Stop (ErrorJson 401 "Acesso negado."), w)
  | Some t =>
      let w1 := log (AuthGetUser t) w in
      let userAuth := getUser svc t in
      match gu_error userAuth, gu_user userAuth with
      | None, Some uid => (Next uid, w1)
      | _, _ => (Stop (ErrorJson 401 "Token inválido."), w1)
      end
  end.

(** [app.METHOD(path, requireAuth, handler)]. *)
Definition guarded (handler : Request -> string -> World -> Outcome * World)
  (req : Request) (w : World) : Outcome * World :=
  match requireAuth req w with
  | (Stop r, w1) => (Sent r, w1)
  | (Next userId, w1) => handler req userId w1
  end.

(** The [catch] block of the registration handler. *)
Definition register_catch (message : string) : Reply :=
  if includes "Unable to validate email address" message then
    ErrorJson 400
      "O e-mail informado é inválido. Verifique se está no formato correto."
  else if includes "invalid format" message then
    ErrorJson 400 "Formato de e-mail inválido."
  else
    ErrorJson 400
      match message with
      | EmptyString => "Erro no processo de cadastro."
      | String _ _ => message
      end.

(** The message of the [TypeError] raised by reading a property of
    [null]. *)
Definition null_property (name : string) : string :=
  "Cannot read properties of null (reading '" ++ name ++ "')".

(** [app.post('/api/auth/register', ...)]. *)
Definition post_api_auth_register (req : Request) (w : World)
  : Outcome * World :=
  match parsed req with
  | None => (Thrown (TypeError (undefined_body "email")), w)
  | Some _ =>
      let email := get "email" (body req) in
      let password := get "password" (body req) in
      let nome := get "nome" (body req) in
      if negb (truthy email) || negb (truthy password) || negb (truthy nome) then
        (Sent (ErrorJson 400 "Campos obrigatórios faltando."), w)
      else
        let w1 := log (AuthSignUp email password) w in
        let signUpData := signUp svc email password in
        match su_error signUpData with
        | Some message => (Sent (register_catch message), w1)
        | None =>
            match su_user signUpData with
            | None => (Sent (register_catch (null_property "id")), w1)
            | Some newUserId =>
                let (ok, w2) :=
                  insert_perfil svc
                    {| pf_id := newUserId; pf_nome := nome; pf_email := email;
                       pf_telefone := None |} w1 in
                if negb ok then
                  (Sent (ErrorJson 500
                           "Usuário criado, mas falha ao salvar perfil."), w2)
                else
                  let w3 := log (AuthSignIn email password) w2 in
                  let sessionData := signInWithPassword svc email password in
                  match si_error sessionData with
                  | Some _ =>
                      (Sent (ErrorJson 500
                               "Usuário criado, mas falha ao gerar token."), w3)
                  | None =>
                      match si_session sessionData with
                      | Some access_token =>
                          (Sent (TokenJson 201 "Cadastro realizado com sucesso!"
                                   access_token), w3)
                      | None =>
                          (Sent (register_catch (null_property "access_token")),
                           w3)
                      end
                  end
            end
        end
  end.

(** The [reduce] callback of the menu handler.  [acc] starts as [{}]:
    [acc[cat]] is an own property (an array, always truthy) or a member
    of [Object.prototype] (truthy as well, and without a [push]). *)
Definition agrupar_item (acc : list (string * list MenuItem))
  (item : MenuItem) : Js.JsError + list (string * list MenuItem) :=
  let cat := match category item with
             | None => "Outros"
             | Some EmptyString => "Outros"
             | Some c => c
             end in
  (fix push (o : list (string * list MenuItem)) :=
     match o with
     | [] =>
         if inherited cat then inl (TypeError "acc[cat].push is not a function")
         else inr [(cat, [item])]
     | (k, xs) :: r =>
         if (k =? cat)%string then inr ((k, (xs ++ [item])%list) :: r)
         else match push r with
              | inl e => inl e
              | inr r' => inr ((k, xs) :: r')
              end
     end) acc.

(** [menu.reduce(callback, {})]. *)
Fixpoint agrupar (menu : list MenuItem) (acc : list (string * list MenuItem))
  : Js.JsError + list (string * list MenuItem) :=
  match menu with
  | [] => inr acc
  | item :: r =>
      match agrupar_item acc item with
      | inl e => inl e
      | inr acc' => agrupar r acc'
      end
  end.

(** [app.get('/api/menu', ...)]. *)
Definition get_api_menu (req : Request) (w : World) : Outcome * World :=
  match select_menu svc w with
  | (None, w1) => (Sent (ErrorJson 500 "Falha ao carregar o cardápio."), w1)
  | (Some menu, w1) =>
      match agrupar menu [] with
      | inl e => (Thrown e, w1)
      | inr agrupado => (Sent (MenuJson 200 agrupado), w1)
      end
  end.

(** The handler of [app.post('/api/pedidos', requireAuth, ...)]. *)
Definition pedidos_handler (req : Request) (userId : string) (w : World)
  : Outcome * World :=
  match parsed req with
  | None => (Thrown (TypeError (undefined_body "items")), w)
  | Some _ =>
      let items := get "items" (body req) in
      let total := get "total" (body req) in
      let details := get "details" (body req) in
      if negb (truthy items) || negb (truthy total) || negb (truthy details) then
        (Sent (ErrorJson 400
                 "Dados incompletos (itens, total ou detalhes faltando)."), w)
      else
        match insert_pedido svc
                {| user_id := userId; items_json := JSON_stringify items;
                   total := total; status := "Pendente";
                   details_json := JSON_stringify details |} w with
        | (None, w1) => (Sent (ErrorJson 500 "Erro ao criar pedido."), w1)
        | (Some pedido, w1) => (Sent (PedidoJson 201 "Pedido criado!" pedido), w1)
        end
  end.

Definition post_api_pedidos : Request -> World -> Outcome * World :=
  guarded pedidos_handler.

(** The handler of [app.post('/api/finalizar', requireAuth, ...)]. *)
Definition finalizar_handler (req : Request) (userId : string) (w : World)
  : Outcome * World :=
  match parsed req with
  | None => (Thrown (TypeError (undefined_body "nome")), w)
  | Some _ =>
      let nome := get "nome" (body req) in
      let telefone := get "telefone" (body req) in
      let endereco := get "endereco" (body req) in
      let pagamento := get "pagamento" (body req) in
      let observacoes := get "observacoes" (body req) in
      let itens := get "itens" (body req) in
      let total := get "total" (body req) in
      if negb (truthy nome) || negb (truthy telefone) || negb (truthy endereco)
         || negb (truthy pagamento) || negb (truthy itens) || negb (truthy total)
      then (Sent (ErrorJson 400 "Dados incompletos."), w)
      else
        match insert_finalizado svc
                {| f_user_id := userId; f_nome := nome; f_telefone := telefone;
                   f_endereco := endereco; f_pagamento := pagamento;
                   f_observacoes := observacoes;
                   f_itens_json := JSON_stringify itens; f_total := total |} w with
        | (None, w1) => (Sent (ErrorJson 500 "Erro ao finalizar pedido."), w1)
        | (Some pedido, w1) =>
            (Sent (FinalizadoJson 201 "Pedido finalizado com sucesso!" pedido), w1)
        end
  end.

Definition post_api_finalizar : Request -> World -> Outcome * World :=
  guarded finalizar_handler.

(** [app.post('/api/auth/login', ...)].  There is no [try] around the
    handler: reading the token of a missing session throws. *)
Definition post_api_auth_login (req : Request) (w : World)
  : Outcome * World :=
  match parsed req with
  | None => (Thrown (TypeError (undefined_body "email")), w)
  | Some _ =>
      let email := get "email" (body req) in
      let password := get "password" (body req) in
      if negb (truthy email) || negb (truthy password) then
        (Sent (ErrorJson 400 "Email e senha são obrigatórios."), w)
      else
        let w1 := log (AuthSignIn email password) w in
        let data := signInWithPassword svc email password in
        match si_error data with
        | Some _ => (Sent (ErrorJson 401 "Credenciais inválidas."), w1)
        | None =>
            match si_session data with
            | Some access_token =>
                (Sent (TokenJson 200 "Login realizado com sucesso!"
                         access_token), w1)
            | None => (Thrown (TypeError (null_property "access_token")), w1)
            end
        end
  end.

(** The API routes this entry point registers. *)
Inductive Route : Type :=
| PostRegister
| PostLogin
| GetMenu
| PostPedidos
| PostFinalizar.

Definition app (r : Route) : Request -> World -> Outcome * World :=
  match r with
  | PostRegister => post_api_auth_register
  | PostLogin => post_api_auth_login
  | GetMenu => get_api_menu
  | PostPedidos => post_api_pedidos
  | PostFinalizar => post_api_finalizar
  end.

End Handlers.
End IndexJs.

(* ================================================================== *)
(** ** The handlers of the second entry point

    The same server in its earlier form: cart submission does not ask for
    [details], registration takes the session of [signUp], and the order
    history is served. *)

Module ServerJs.
Import Json Js Supabase.
Section Handlers.
Context `{NumberOps}.
Variable svc : Service.

Definition requireAuth (req : Request) (w : World) : Gate * World :=
  let authHeader := header "authorization" (headers req) in
  let token := token_of authHeader in
  match token with
  | None | Some EmptyString =>
      (Stop (ErrorJson 401 "Acesso negado. Token não fornecido."), w)
  | Some t =>
      let w1 := log (AuthGetUser t) w in
      let userAuth := getUser svc t in
      match gu_error userAuth, gu_user userAuth with
      | None, Some uid => (Next uid, w1)
      | _, _ => (Stop (ErrorJson 401 "Token inválido ou expirado."), w1)
      end
  end.

Definition guarded (handler : Request -> string -> World -> Outcome * World)
  (req : Request) (w : World) : Outcome * World :=
  match requireAuth req w with
  | (Stop r, w1) => (Sent r, w1)
  | (Next userId, w1) => handler req userId w1
  end.

(** [error.message || 'Erro no processo de cadastro.'] *)
Definition register_catch (message : string) : Reply :=
  ErrorJson 400
    match message with
    | EmptyString => "Erro no processo de cadastro."
    | String _ _ => message
    end.

Definition null_property (name : string) : string :=
  "Cannot read properties of null (reading '" ++ name ++ "')".

(** [app.post('/api/auth/register', ...)]. *)
Definition post_api_auth_register (req : Request) (w : World)
  : Outcome * World :=
  match parsed req with
  | None => (Thrown (TypeError (undefined_body "email")), w)
  | Some _ =>
      let email := get "email" (body req) in
      let password := get "password" (body req) in
      let nome := get "nome" (body req) in
      let telefone := get "telefone" (body req) in
      if negb (truthy email) || negb (truthy password) || negb (truthy nome) then
        (Sent (ErrorJson 400 "Campos obrigatórios faltando."), w)
      else
        let w1 := log (AuthSignUp email password) w in
        let authData := signUp svc email password in
        match su_error authData with
        | Some message => (Sent (register_catch message), w1)
        | None =>
            match su_user authData with
            | None => (Sent (register_catch (null_property "id")), w1)
            | Some newUserId =>
                let (ok, w2) :=
                  insert_perfil svc
                    {| pf_id := newUserId; pf_nome := nome; pf_email := email;
                       pf_telefone := if truthy telefone then telefone else None |}
                    w1 in
                if negb ok then
                  (Sent (ErrorJson 500
                           "Usuário criado, mas falha ao salvar dados adicionais."),
                   w2)
                else
                  match su_session authData with
                  | Some access_token =>
                      (Sent (TokenJson 201 "Cadastro realizado com sucesso!"
                               access_token), w2)
                  | None =>
                      (Sent (register_catch (null_property "access_token")), w2)
                  end
            end
        end
  end.

(** The [reduce] callback of the menu handler; [acc] starts as [{}], so
    [acc[category]] also sees what [Object.prototype] provides. *)
Definition groupedMenu_item (acc : list (string * list MenuItem))
  (item : MenuItem) : Js.JsError + list (string * list MenuItem) :=
  let cat := match category item with
             | None => "Outros"
             | Some EmptyString => "Outros"
             | Some c => c
             end in
  (fix push (o : list (string * list MenuItem)) :=
     match o with
     | [] =>
         if inherited cat then
           inl (TypeError "acc[category].push is not a function")
         else inr [(cat, [item])]
     | (k, xs) :: r =>
         if (k =? cat)%string then inr ((k, (xs ++ [item])%list) :: r)
         else match push r with
              | inl e => inl e
              | inr r' => inr ((k, xs) :: r')
              end
     end) acc.

Fixpoint groupedMenu (menu : list MenuItem)
  (acc : list (string * list MenuItem))
  : Js.JsError + list (string * list MenuItem) :=
  match menu with
  | [] => inr acc
  | item :: r =>
      match groupedMenu_item acc item with
      | inl e => inl e
      | inr acc' => groupedMenu r acc'
      end
  end.

(** [app.get('/api/menu', ...)]. *)
Definition get_api_menu (req : Request) (w : World) : Outcome * World :=
  match select_menu svc w with
  | (None, w1) => (Sent (ErrorJson 500 "Falha ao carregar o cardápio."), w1)
  | (Some menu, w1) =>
      match groupedMenu menu [] with
      | inl e => (Thrown e, w1)
      | inr grouped => (Sent (MenuJson 200 grouped), w1)
      end
  end.

(** The handler of [app.post('/api/pedidos', requireAuth, ...)]. *)
Definition pedidos_handler (req : Request) (userId : string) (w : World)
  : Outcome * World :=
  match parsed req with
  | None => (Thrown (TypeError (undefined_body "items")), w)
  | Some _ =>
      let items := get "items" (body req) in
      let total := get "total" (body req) in
      if negb (truthy items) || negb (truthy total) then
        (Sent (ErrorJson 400 "O carrinho está vazio ou o total está faltando."),
         w)
      else
        match insert_pedido svc
                {| user_id := userId; items_json := JSON_stringify items;
                   total := total; status := "Pendente";
                   details_json := None |} w with
        | (None, w1) => (Sent (ErrorJson 500 "Falha ao finalizar o pedido."), w1)
        | (Some pedido, w1) =>
            (Sent (PedidoJson 201 "Pedido finalizado com sucesso!" pedido), w1)
        end
  end.

Definition post_api_pedidos : Request -> World -> Outcome * World :=
  guarded pedidos_handler.

(** [pedidos.map(p => ({ ...p, items: JSON.parse(p.items_json) }))]: the
    first row whose text does not parse ends the whole [map]. *)
Fixpoint pedidosFormatados (pedidos : list PedidoCols)
  : option (list PedidoView) :=
  match pedidos with
  | [] => Some []
  | p :: r =>
      match JSON_parse (c_items_json p) with
      | None => None
      | Some parsed =>
          match pedidosFormatados r with
          | None => None
          | Some vs => Some ({| row := p; items := parsed |} :: vs)
          end
      end
  end.

(** The handler of [app.get('/api/pedidos', requireAuth, ...)]. *)
Definition historico_handler (req : Request) (userId : string) (w : World)
  : Outcome * World :=
  match select_pedidos svc userId w with
  | (None, w1) => (Sent (ErrorJson 500 "Falha ao carregar seus pedidos."), w1)
  | (Some pedidos, w1) =>
      match pedidosFormatados pedidos with
      | None => (Thrown SyntaxError, w1)
      | Some formatados => (Sent (PedidosJson 200 formatados), w1)
      end
  end.

Definition get_api_pedidos : Request -> World -> Outcome * World :=
  guarded historico_handler.

(** [app.post('/api/auth/login', ...)]: the upstream message is appended
    to the reply; a missing session throws, as nothing catches it. *)
Definition post_api_auth_login (req : Request) (w : World)
  : Outcome * World :=
  match parsed req with
  | None => (Thrown (TypeError (undefined_body "email")), w)
  | Some _ =>
      let email := get "email" (body req) in
      let password := get "password" (body req) in
      if negb (truthy email) || negb (truthy password) then
        (Sent (ErrorJson 400 "Email e senha são obrigatórios."), w)
      else
        let w1 := log (AuthSignIn email password) w in
        let authData := signInWithPassword svc email password in
        match si_error authData with
        | Some message =>
            (Sent (ErrorJson 401 ("Credenciais inválidas: " ++ message)), w1)
        | None =>
            match si_session authData with
            | Some access_token =>
                (Sent (TokenJson 200 "Login realizado com sucesso!"
                         access_token), w1)
            | None => (Thrown (TypeError (null_property "access_token")), w1)
            end
        end
  end.

(** The API routes this entry point registers. *)
Inductive Route : Type :=
| PostRegister
| PostLogin
| GetMenu
| PostPedidos
| GetPedidos.

Definition app (r : Route) : Request -> World -> Outcome * World :=
  match r with
  | PostRegister => post_api_auth_register
  | PostLogin => post_api_auth_login
  | GetMenu => get_api_menu
  | PostPedidos => post_api_pedidos
  | GetPedidos => get_api_pedidos
  end.

End Handlers.
End ServerJs.

(* ================================================================== *)
(** ** Integers as numbers

    Integers printed in plain decimal, which is how [Number::toString]
    prints an integer-valued double below 1e21. *)

Definition z_to_string (z : Z) : string :=
  NilZero.string_of_int (Z.to_int z).

(** An optional minus sign, then [0] or digits without a leading zero. *)
Definition z_of_string (s : string) : option Z :=
  match NilZero.int_of_string s with
  | None => None
  | Some d =>
      let z := Z.of_int d in
      if (z_to_string z =? s)%string then Some z
      else if (s =? "-0")%string then Some 0%Z
      else None
  end.

#[export] Instance ZNumber : NumberOps := {|
  num := Z;
  num_to_string := z_to_string;
  num_of_string := z_of_string;
  num_is_falsy := Z.eqb 0
|}.

(* ================================================================== *)
(** ** Concrete services, stores and requests *)

Module Fixtures.
Import Json Js Supabase.

Definition user_found (uid : string) : GetUserResponse :=
  {| gu_error := None; gu_user := Some uid |}.

Definition sign_up_error (message : string) : SignUpResponse :=
  {| su_error := Some message; su_user := None; su_session := None |}.

(** Two sessions are open; one address is taken and one is malformed;
    every table call succeeds. *)
Definition demo : Service :=
  {| getUser := fun t =>
       if (t =? "tok-ana")%string then user_found "u-ana"
       else if (t =? "tok-bia")%string then user_found "u-bia"
       else {| gu_error := Some "invalid JWT"; gu_user := None |};
     signUp := fun email _ =>
       match email with
       | Some (JStr "ana@example.com") =>
           sign_up_error "User already registered"
       | Some (JStr "ana@") =>
           sign_up_error "Unable to validate email address: invalid format"
       | _ => {| su_error := None; su_user := Some "u-new";
                 su_session := Some "tok-new" |}
       end;
     signInWithPassword := fun _ _ =>
       {| si_error := None; si_session := Some "tok-new" |};
     db_error := fun _ => false |}.

Definition empty_store : World :=
  {| perfis := []; pedidos := []; pedidos_finalizados := []; menu := [];
     next_id := 1; now := 1000; trace := [] |}.

Definition with_header (h : string) (b : list (string * JsVal)) : Request :=
  {| headers := [("content-type", "application/json"); ("authorization", h)];
     parsed := Some b |}.

Definition without_header (b : list (string * JsVal)) : Request :=
  {| headers := [("content-type", "application/json")]; parsed := Some b |}.

(** A request that carries no body: [req.body] is undefined. *)
Definition bodyless (h : string) : Request :=
  {| headers := [("authorization", h)]; parsed := None |}.

Definition bare : Request := {| headers := []; parsed := None |}.

(** The cart of the specification's example: one line, total 10. *)
Definition cart : JsVal :=
  JArr [JObj [("item_id", JNum 1%Z); ("quantity", JNum 2%Z);
              ("unit_price", JNum 5%Z)]].

Definition delivery : JsVal :=
  JObj [("endereco", JStr "Rua das Flores, 10")].

Definition ten : JsVal := JNum 10%Z.

Definition order_body : list (string * JsVal) :=
  [("items", cart); ("total", ten); ("details", delivery)].

Definition stored (i t : Z) (owner : string) (text : string) : Pedido :=
  {| id := i; created_at := t;
     cols := {| user_id := owner; items_json := Some text;
                total := Some (JNum 10%Z); status := "Pendente";
                details_json := None |} |}.

Definition with_pedidos (rows : list Pedido) : World :=
  {| perfis := []; pedidos := rows; pedidos_finalizados := []; menu := [];
     next_id := 100; now := 2000; trace := [] |}.

Definition dish (i : Z) (c : option string) : MenuItem :=
  {| m_id := i; m_name := "prato"; m_price := 5%Z; category := c |}.

Definition with_menu (rows : list MenuItem) : World :=
  {| perfis := []; pedidos := []; pedidos_finalizados := []; menu := rows;
     next_id := 100; now := 2000; trace := [] |}.

End Fixtures.

(* ================================================================== *)
(** ** The primitives on small inputs *)

Module Examples.
Import Json Js Supabase Fixtures.

Example split_bearer : split " " "Bearer abc" = ["Bearer"; "abc"].
Proof. reflexivity. Qed.

Example split_trailing_space : split " " "Bearer " = ["Bearer"; EmptyString].
Proof. reflexivity. Qed.

Example split_double_space :
  split " " "Bearer  abc" = ["Bearer"; EmptyString; "abc"].
Proof. reflexivity. Qed.

Example split_empty : split " " EmptyString = [EmptyString].
Proof. reflexivity. Qed.

Example token_of_raw : token_of (Some "abc") = None.
Proof. reflexivity. Qed.

Example includes_inside :
  includes "invalid format" "email: invalid format." = true.
Proof. reflexivity. Qed.

Example includes_absent : includes "invalid format" "User exists" = false.
Proof. reflexivity. Qed.

(** Without a body the destructuring of [req.body] throws. *)
Example bodyless_login_throws :
  IndexJs.post_api_auth_login demo bare empty_store
  = (Thrown (TypeError
       "Cannot destructure property 'email' of 'req.body' as it is undefined."),
     empty_store).
Proof. reflexivity. Qed.

(** Two orders created one after the other: the later one has the later
    timestamp and is listed first. *)
Example later_order_is_listed_first :
  let post := with_header "Bearer tok-ana" order_body in
  let w1 := snd (ServerJs.post_api_pedidos demo post empty_store) in
  let w2 := snd (ServerJs.post_api_pedidos demo post w1) in
  match fst (ServerJs.get_api_pedidos demo (with_header "Bearer tok-ana" []) w2)
  with
  | Sent (PedidosJson 200 vs) => map (fun v => c_id (row v)) vs = [2; 1]%Z
  | _ => False
  end.
Proof. vm_compute. reflexivity. Qed.

Example empty_array_is_truthy : truthy (Some (JArr [])) = true.
Proof. reflexivity. Qed.

Example zero_is_falsy : truthy (Some (JNum 0%Z)) = false.
Proof. reflexivity. Qed.

Example empty_string_is_falsy : truthy (Some (JStr EmptyString)) = false.
Proof. reflexivity. Qed.

Example stringify_array :
  stringify (JArr [JNum 1%Z; JNull; JBool true; JNum (-12)%Z])
  = "[1,null,true,-12]".
Proof. reflexivity. Qed.

Example stringify_key :
  stringify (JObj [("a", JArr [])])
  = String "{" (String dquote (String "a" (String dquote ":[]}"))).
Proof. reflexivity. Qed.

Example stringify_newline :
  stringify (JStr (String "010" "x"))
  = String dquote
      (String "\" (String "n" (String "x" (String dquote EmptyString)))).
Proof. reflexivity. Qed.

Example parse_cart : parse (stringify cart) = Some cart.
Proof. reflexivity. Qed.

Example parse_spaces :
  parse " [ 1 , 2 ] " = Some (JArr [JNum 1%Z; JNum 2%Z]).
Proof. reflexivity. Qed.

Example parse_unicode_escape :
  parse (String dquote (String "\" ("u0041" ++ String dquote EmptyString)))
  = Some (JStr "A").
Proof. reflexivity. Qed.

Example parse_repeated_key :
  parse (stringify (JObj [("a", JNum 1%Z); ("b", JNull); ("a", JNum 2%Z)]))
  = Some (JObj [("a", JNum 2%Z); ("b", JNull)]).
Proof. reflexivity. Qed.

Example parse_truncated : parse "{oops" = None.
Proof. reflexivity. Qed.

Example parse_trailing_comma : parse "[1,]" = None.
Proof. reflexivity. Qed.

Example parse_empty : parse EmptyString = None.
Proof. reflexivity. Qed.

Example parse_garbage_after : parse "null x" = None.
Proof. reflexivity. Qed.

Example parse_null_column : JSON_parse None = Some JNull.
Proof. reflexivity. Qed.

Example inherited_constructor : inherited "constructor" = true.
Proof. reflexivity. Qed.

Example inherited_bebidas : inherited "Bebidas" = false.
Proof. reflexivity. Qed.

Example newest_first_orders :
  map id
    (order_by newest_first
       [stored 1 10 "u" "[]"; stored 2 30 "u" "[]"; stored 3 20 "u" "[]";
        stored 4 30 "u" "[]"])
  = [2; 4; 3; 1]%Z.
Proof. reflexivity. Qed.

End Examples.

(* ================================================================== *)
(** * Properties *)

(** ** [JSON.parse] inverts [JSON.stringify] *)

Module JsonFacts.
Import Json.

Lemma length_append (a b : string) :
  String.length (a ++ b) = String.length a + String.length b.
Proof. induction a as [|c a IH]; simpl; [reflexivity | now rewrite IH]. Qed.

(** A character is one of 256: facts about a fixed set of characters are
    settled by enumeration. *)
Ltac each_char c :=
  destruct c as [[] [] [] [] [] [] [] []].

Lemma quote_char_nonempty c : 1 <= String.length (quote_char c).
Proof. each_char c; vm_compute; lia. Qed.

Lemma parse_quote_char c r :
  parse_chars (quote_char c ++ r)
  = prepend (String c EmptyString) (parse_chars r).
Proof. each_char c; reflexivity. Qed.

Lemma parse_quote_chars s k : parse_chars (quote_chars s k) = Some (s, k).
Proof.
  induction s as [|c s IH]; simpl.
  - reflexivity.
  - rewrite parse_quote_char, IH. reflexivity.
Qed.

(** The text that follows a number must not continue it. *)
Definition boundary (k : string) : Prop :=
  match k with
  | EmptyString => True
  | String c _ => is_num_char c = false
  end.

Lemma span_num_append r k :
  all_chars is_num_char r = true -> boundary k ->
  span_num (r ++ k) = (r, k).
Proof.
  induction r as [|c r IH]; simpl; intros Hr Hk.
  - destruct k as [|c k]; simpl in *; [reflexivity | now rewrite Hk].
  - apply andb_prop in Hr as [Hc Hr]. rewrite Hc, (IH Hr Hk). reflexivity.
Qed.

(** Characters a JSON value can start with. *)
Definition value_start (c : ascii) : bool :=
  (c =? "n")%char || (c =? "t")%char || (c =? "f")%char
  || (c =? dquote)%char || (c =? "[")%char || (c =? "{")%char
  || is_num_start c.

Lemma value_start_not_ws c : value_start c = true -> is_ws c = false.
Proof. each_char c; vm_compute; congruence. Qed.

Lemma value_start_not_close c :
  value_start c = true -> (c =? "]")%char = false /\ (c =? "}")%char = false.
Proof. each_char c; vm_compute; intuition congruence. Qed.

Lemma num_start_dispatch c :
  is_num_start c = true ->
  (c =? "n")%char = false /\ (c =? "t")%char = false
  /\ (c =? "f")%char = false /\ (c =? dquote)%char = false
  /\ (c =? "[")%char = false /\ (c =? "{")%char = false
  /\ is_ws c = false /\ is_num_char c = true.
Proof. each_char c; vm_compute; intuition congruence. Qed.

Lemma distinct_NoDup ks : distinct ks = true -> NoDup ks.
Proof.
  induction ks as [|k ks IH]; simpl; intros Hd; constructor.
  - apply andb_prop in Hd as [Hk _]. intros Hin.
    apply negb_true_iff in Hk.
    assert (existsb (String.eqb k) ks = true) as E.
    { apply existsb_exists. exists k.
      split; [assumption | apply String.eqb_refl]. }
    congruence.
  - apply andb_prop in Hd as [_ Hd]. auto.
Qed.

Section RoundTrip.
Context `{ops : NumberOps} `{!NumberLaws}.

Lemma obj_set_fresh k (v : JsVal) o :
  ~ In k (map fst o) -> obj_set k v o = (o ++ [(k, v)])%list.
Proof.
  induction o as [|[k' v'] o IH]; simpl; intros Hk.
  - reflexivity.
  - destruct (String.eqb_spec k' k) as [->|_].
    + exfalso. apply Hk. now left.
    + rewrite IH; [reflexivity | tauto].
Qed.

Lemma emit_start (v : JsVal) k :
  exists c r, emit v k = String c r /\ value_start c = true.
Proof.
  destruct v as [|[]|n|s|xs|kvs]; simpl; try (eexists _, _; split; reflexivity).
  destruct (num_print_shape n) as (c & r & -> & Hc & _).
  exists c, (r ++ k). split; [reflexivity|].
  unfold value_start. rewrite Hc. now rewrite !orb_true_r.
Qed.

Lemma skip_ws_emit (v : JsVal) k : skip_ws (emit v k) = emit v k.
Proof.
  destruct (emit_start v k) as (c & r & -> & Hc).
  simpl. now rewrite (value_start_not_ws _ Hc).
Qed.

(** One step of each parser, as an equation. *)
Lemma parse_elements_S fuel s acc :
  parse_elements (S fuel) s acc =
  match parse_value fuel s with
  | None => None
  | Some (v, r) =>
      match skip_ws r with
      | EmptyString => None
      | String c r' =>
          if (c =? ",")%char then parse_elements fuel r' (acc ++ [v])%list
          else if (c =? "]")%char then Some (JArr (acc ++ [v])%list, r')
          else None
      end
  end.
Proof. reflexivity. Qed.

Lemma parse_members_quote fuel key s acc :
  parse_members (S fuel) (quote key (String ":" s)) acc =
  match parse_value fuel s with
  | None => None
  | Some (v, r3) =>
      match skip_ws r3 with
      | EmptyString => None
      | String c3 r4 =>
          if (c3 =? ",")%char then parse_members fuel r4 (obj_set key v acc)
          else if (c3 =? "}")%char then Some (JObj (obj_set key v acc), r4)
          else None
      end
  end.
Proof.
  unfold quote. cbn [parse_members skip_ws]. 
  change (is_ws dquote) with false. cbv iota.
  change (dquote =? dquote)%char with true. cbv iota.
  rewrite parse_quote_chars. reflexivity.
Qed.

Lemma boundary_elements emitf k (xs : list JsVal) :
  boundary (emit_elements emitf k xs).
Proof. destruct xs; reflexivity. Qed.

Lemma boundary_members emitf k (kvs : list (string * JsVal)) :
  boundary (emit_members emitf k kvs).
Proof. destruct kvs; reflexivity. Qed.

(** What the induction proves of one value. *)
Definition reads_back (v : JsVal) : Prop :=
  well_formed v = true ->
  forall fuel k, size v <= fuel -> boundary k ->
  parse_value fuel (emit v k) = Some (v, k).

Lemma elements_read_back xs :
  Forall reads_back xs ->
  forall x acc fuel k,
    reads_back x ->
    forallb well_formed (x :: xs) = true ->
    list_sum (map (fun y => S (size y)) (x :: xs)) <= fuel ->
    parse_elements fuel (emit x (emit_elements emit k xs)) acc
    = Some (JArr (acc ++ x :: xs)%list, k).
Proof.
  induction 1 as [|y ys Hy _ IH]; intros x acc fuel k Hx Hwf Hfuel;
    simpl in Hwf, Hfuel; apply andb_prop in Hwf as [Hwx Hwf];
    (destruct fuel as [|fuel]; [lia|]); rewrite parse_elements_S.
  - rewrite (Hx Hwx); [| lia | reflexivity]. reflexivity.
  - rewrite (Hx Hwx); [| lia | reflexivity]. cbn [emit_elements skip_ws].
    change (is_ws ",") with false. cbv iota.
    change ("," =? ",")%char with true. cbv iota.
    rewrite (IH y (acc ++ [x])%list fuel k Hy Hwf); [| simpl; lia].
    now rewrite <- app_assoc.
Qed.

Lemma members_read_back kvs :
  Forall (fun kv => reads_back (snd kv)) kvs ->
  forall kv acc fuel k,
    reads_back (snd kv) ->
    NoDup (map fst (acc ++ kv :: kvs)%list) ->
    forallb (fun kv => well_formed (snd kv)) (kv :: kvs) = true ->
    list_sum (map (fun kv => S (size (snd kv))) (kv :: kvs)) <= fuel ->
    parse_members fuel
      (quote (fst kv) (String ":" (emit (snd kv) (emit_members emit k kvs))))
      acc
    = Some (JObj (acc ++ kv :: kvs)%list, k).
Proof.
  induction 1 as [|y ys Hy _ IH]; intros [key x] acc fuel k Hx Hnd Hwf Hfuel;
    simpl in Hwf, Hfuel, Hx; apply andb_prop in Hwf as [Hwx Hwf];
    (destruct fuel as [|fuel]; [lia|]); cbn [fst snd];
    rewrite parse_members_quote;
    (rewrite (Hx Hwx); [| lia | reflexivity]);
    (rewrite obj_set_fresh;
     [| rewrite map_app in Hnd; apply NoDup_remove_2 in Hnd;
        intros Hin; apply Hnd, in_or_app; now left]).
  - reflexivity.
  - cbn [emit_members skip_ws].
    change (is_ws ",") with false. cbv iota.
    change ("," =? ",")%char with true. cbv iota.
    unfold emit_member.
    rewrite (IH y (acc ++ [(key, x)])%list fuel k Hy);
      [| | exact Hwf | simpl; lia].
    + now rewrite <- app_assoc.
    + now rewrite <- app_assoc.
Qed.

Lemma parse_value_S fuel s :
  parse_value (S fuel) s =
  match skip_ws s with
  | EmptyString => None
  | String c r =>
      if (c =? "n")%char then option_map (pair JNull) (expect "ull" r)
      else if (c =? "t")%char then
        option_map (pair (JBool true)) (expect "rue" r)
      else if (c =? "f")%char then
        option_map (pair (JBool false)) (expect "alse" r)
      else if (c =? dquote)%char then
        match parse_chars r with
        | Some (str, r') => Some (JStr str, r')
        | None => None
        end
      else if (c =? "[")%char then
        match skip_ws r with
        | String c' r' =>
            if (c' =? "]")%char then Some (JArr [], r')
            else parse_elements fuel r []
        | EmptyString => None
        end
      else if (c =? "{")%char then
        match skip_ws r with
        | String c' r' =>
            if (c' =? "}")%char then Some (JObj [], r')
            else parse_members fuel r []
        | EmptyString => None
        end
      else if is_num_start c then
        let (tok, r') := span_num (String c r) in
        match num_of_string tok with
        | Some n => Some (JNum n, r')
        | None => None
        end
      else None
  end.
Proof. reflexivity. Qed.

Lemma number_reads_back n fuel k :
  boundary k ->
  parse_value (S fuel) (num_to_string n ++ k) = Some (JNum n, k).
Proof.
  intros Hk. rewrite parse_value_S.
  pose proof (num_print_parse n) as Hparse.
  destruct (num_print_shape n) as (c & r & E & Hc & Hr).
  rewrite E in *. cbn [append skip_ws].
  destruct (num_start_dispatch c Hc) as (E1 & E2 & E3 & E4 & E5 & E6 & E7 & E8).
  rewrite E7, E1, E2, E3, E4, E5, E6, Hc.
  cbn [span_num]. rewrite E8, (span_num_append r k Hr Hk), Hparse.
  reflexivity.
Qed.

Theorem emit_reads_back (v : JsVal) : reads_back v.
Proof.
  induction v as [|b|n|s|xs IH|kvs IH] using JsVal_ind;
    intros Hwf fuel k Hfuel Hk;
    (destruct fuel as [|fuel]; [simpl in Hfuel; lia|]).
  - reflexivity.
  - destruct b; reflexivity.
  - now apply number_reads_back.
  - rewrite parse_value_S. cbn [emit quote skip_ws].
    change (is_ws dquote) with false. cbv iota.
    change (dquote =? "n")%char with false.
    change (dquote =? "t")%char with false.
    change (dquote =? "f")%char with false.
    change (dquote =? dquote)%char with true. cbv iota.
    now rewrite parse_quote_chars.
  - destruct xs as [|x xs]; [reflexivity|].
    rewrite parse_value_S. cbn [emit skip_ws].
    change (is_ws "[") with false. cbv iota.
    rewrite skip_ws_emit.
    destruct (emit_start x (emit_elements emit k xs)) as (c & r & E & Hc).
    rewrite E. destruct (value_start_not_close c Hc) as [-> _].
    rewrite <- E. cbn -[emit parse_elements].
    inversion IH as [|? ? Hx Hxs]; subst.
    rewrite (elements_read_back xs Hxs x [] fuel k Hx Hwf);
      [reflexivity | simpl in Hfuel |- *; lia].
  - destruct kvs as [|kv kvs]; [reflexivity|].
    rewrite parse_value_S. cbn [emit skip_ws].
    change (is_ws "{") with false. cbv iota.
    unfold quote at 1. cbn [skip_ws].
    change (is_ws dquote) with false. cbv iota.
    change (String dquote (quote_chars (fst kv) ?k)) with (quote (fst kv) k).
    cbn -[emit parse_members quote].
    inversion IH as [|? ? Hx Hxs]; subst.
    simpl in Hwf. apply andb_prop in Hwf as [Hd Hwf].
    rewrite (members_read_back kvs Hxs kv [] fuel k Hx);
      [reflexivity | | exact Hwf | simpl in Hfuel |- *; lia].
    apply (distinct_NoDup (map fst (kv :: kvs))). exact Hd.
Qed.

(** The text of a value is at least as long as the value is large. *)
Lemma size_le_length (v : JsVal) :
  forall k, size v + String.length k <= String.length (emit v k).
Proof.
  induction v as [|b|n|s|xs IH|kvs IH] using JsVal_ind; intros k.
  - simpl. lia.
  - destruct b; simpl; lia.
  - simpl. rewrite length_append.
    destruct (num_print_shape n) as (c & r & -> & _). simpl. lia.
  - simpl. induction s as [|c s IHs]; simpl; [lia|].
    rewrite length_append. pose proof (quote_char_nonempty c). lia.
  - destruct xs as [|x xs]; [simpl; lia|].
    inversion IH as [|? ? Hx Hxs]; subst.
    assert (forall k, list_sum (map (fun y => S (size y)) xs)
                      + S (String.length k)
                      <= String.length (emit_elements emit k xs)) as Hrest.
    { clear Hx IH. induction Hxs as [|y ys Hy _ IHys]; intros k'; simpl.
      - lia.
      - specialize (Hy (emit_elements emit k' ys)). specialize (IHys k'). lia. }
    specialize (Hx (emit_elements emit k xs)). specialize (Hrest k).
    cbn [emit size map String.length]. unfold list_sum in *.
    cbn [fold_right]. lia.
  - destruct kvs as [|kv kvs]; [simpl; lia|].
    inversion IH as [|? ? Hx Hxs]; subst.
    assert (forall s k, String.length k < String.length (quote s k)) as Hq.
    { intros s k'. unfold quote. simpl.
      induction s as [|c s IHs]; simpl; [lia|].
      rewrite length_append. lia. }
    assert (forall k, list_sum (map (fun y => S (size (snd y))) kvs)
                      + S (String.length k)
                      <= String.length (emit_members emit k kvs)) as Hrest.
    { clear Hx IH. induction Hxs as [|y ys Hy _ IHys]; intros k'; simpl.
      - lia.
      - unfold emit_member.
        pose proof (Hq (fst y)
                      (String ":" (emit (snd y) (emit_members emit k' ys)))).
        specialize (Hy (emit_members emit k' ys)). specialize (IHys k').
        simpl in *. lia. }
    pose proof (Hq (fst kv)
                  (String ":" (emit (snd kv) (emit_members emit k kvs)))).
    specialize (Hx (emit_members emit k kvs)). specialize (Hrest k).
    cbn [emit size map String.length] in *. unfold list_sum in *.
    cbn [fold_right]. lia.
Qed.

(** [JSON.parse(JSON.stringify(v))] is [v]. *)
Theorem parse_stringify (v : JsVal) :
  well_formed v = true -> parse (stringify v) = Some v.
Proof.
  intros Hwf. unfold parse, stringify.
  rewrite (emit_reads_back v Hwf); [reflexivity | | exact I].
  pose proof (size_le_length v EmptyString). lia.
Qed.

End RoundTrip.

End JsonFacts.

(** ** Integers satisfy the number laws *)

Module ZNumberFacts.

Lemma digits_of_uint (d : Decimal.uint) :
  all_chars is_digit (NilEmpty.string_of_uint d) = true.
Proof. induction d; simpl; auto. Qed.

Lemma digit_is_num_char s :
  all_chars is_digit s = true -> all_chars is_num_char s = true.
Proof.
  induction s as [|c s IH]; simpl; [reflexivity|].
  intros Hs. apply andb_prop in Hs as [Hc Hs].
  rewrite (IH Hs), andb_true_r.
  unfold is_num_char, is_num_start. rewrite Hc. now rewrite orb_true_r.
Qed.

Lemma uint_shape (d : Decimal.uint) :
  exists c r, NilZero.string_of_uint d = String c r
              /\ is_digit c = true /\ all_chars is_digit r = true.
Proof.
  pose proof (digits_of_uint d) as Hd.
  destruct d; simpl in *;
    try (apply andb_prop in Hd as [Hc Hd]);
    eexists _, _; repeat split; try reflexivity; assumption.
Qed.

Lemma z_print_shape (z : Z) :
  exists c r, z_to_string z = String c r /\ is_num_start c = true
              /\ all_chars is_num_char r = true.
Proof.
  unfold z_to_string.
  destruct z as [|p|p]; cbn [Z.to_int NilZero.string_of_int].
  - exists "0"%char, EmptyString. repeat split.
  - destruct (uint_shape (Pos.to_uint p)) as (c & r & -> & Hc & Hr).
    exists c, r. repeat split.
    + unfold is_num_start. rewrite Hc. apply orb_true_r.
    + now apply digit_is_num_char.
  - destruct (uint_shape (Pos.to_uint p)) as (c & r & E & Hc & Hr).
    exists "-"%char, (NilZero.string_of_uint (Pos.to_uint p)).
    repeat split. rewrite E. simpl.
    unfold is_num_char at 1, is_num_start. rewrite Hc, orb_true_r. simpl.
    now apply digit_is_num_char.
Qed.

Lemma z_print_parse (z : Z) : z_of_string (z_to_string z) = Some z.
Proof.
  unfold z_of_string, z_to_string.
  rewrite NilZero.isi.
  - rewrite DecimalZ.of_to, String.eqb_refl. reflexivity.
  - destruct z; simpl; try discriminate.
    intros E. injection E as E.
    now apply (DecimalPos.Unsigned.to_uint_nonnil p).
  - destruct z; simpl; try discriminate.
    intros E. injection E as E.
    now apply (DecimalPos.Unsigned.to_uint_nonnil p).
Qed.

#[export] Instance ZNumberLaws : NumberLaws := {|
  num_print_parse := z_print_parse;
  num_print_shape := z_print_shape
|}.

End ZNumberFacts.

(* ================================================================== *)
(** ** The request gate *)

Module Gateway.
Import Json Js Supabase.

(** The header carries no usable token: it is absent, empty, or has no
    non-empty second segment. *)
Definition tokenless (authHeader : option string) : Prop :=
  token_of authHeader = None \/ token_of authHeader = Some EmptyString.

(** *** What [split] makes of a header *)

Definition spaceless (s : string) : bool :=
  all_chars (fun c => negb (c =? " ")%char) s.

(** The fallback branch of [split] is never taken. *)
Lemma split_nonempty sep s : split sep s <> [].
Proof.
  destruct s as [|c s]; simpl; [discriminate|].
  destruct (c =? sep)%char; [discriminate|].
  destruct (split sep s); discriminate.
Qed.

Lemma split_spaceless s : spaceless s = true -> split " " s = [s].
Proof.
  induction s as [|c s IH]; simpl; [reflexivity|].
  intros Hs. apply andb_prop in Hs as [Hc Hs].
  apply negb_true_iff in Hc. rewrite Hc, (IH Hs). reflexivity.
Qed.

Lemma split_word word rest :
  spaceless word = true ->
  split " " (word ++ String " " rest) = word :: split " " rest.
Proof.
  induction word as [|c word IH]; simpl; [reflexivity|].
  intros Hs. apply andb_prop in Hs as [Hc Hs].
  apply negb_true_iff in Hc. rewrite Hc, (IH Hs). reflexivity.
Qed.

(** A header of two words: whatever the first word is, the second is
    the token. *)
Lemma token_of_two_words scheme token :
  spaceless scheme = true -> spaceless token = true ->
  token_of (Some (scheme ++ String " " token)) = Some token.
Proof.
  intros Hs Ht. unfold token_of.
  destruct (scheme ++ String " " token) eqn:E.
  - destruct scheme; discriminate.
  - rewrite <- E, (split_word scheme token Hs), (split_spaceless token Ht).
    reflexivity.
Qed.

(** A header of one word carries no token. *)
Lemma token_of_one_word h :
  spaceless h = true -> tokenless (Some h).
Proof.
  intros Hs. unfold tokenless, token_of.
  destruct h as [|c h]; [now right|].
  rewrite (split_spaceless _ Hs). now left.
Qed.

Section WithService.
Context `{NumberOps}.
Variable svc : Service.

Lemma index_gate_closed req w :
  tokenless (header "authorization" (headers req)) ->
  IndexJs.requireAuth svc req w = (Stop (ErrorJson 401 "Acesso negado."), w).
Proof. unfold IndexJs.requireAuth. intros [-> | ->]; reflexivity. Qed.

Lemma server_gate_closed req w :
  tokenless (header "authorization" (headers req)) ->
  ServerJs.requireAuth svc req w
  = (Stop (ErrorJson 401 "Acesso negado. Token não fornecido."), w).
Proof. unfold ServerJs.requireAuth. intros [-> | ->]; reflexivity. Qed.

(** Every guarded route of both entry points answers a tokenless request
    with 401 and leaves the world, call trace included, as it was. *)
Lemma tokenless_routes req w :
  tokenless (header "authorization" (headers req)) ->
  IndexJs.post_api_pedidos svc req w
    = (Sent (ErrorJson 401 "Acesso negado."), w)
  /\ IndexJs.post_api_finalizar svc req w
    = (Sent (ErrorJson 401 "Acesso negado."), w)
  /\ ServerJs.post_api_pedidos svc req w
    = (Sent (ErrorJson 401 "Acesso negado. Token não fornecido."), w)
  /\ ServerJs.get_api_pedidos svc req w
    = (Sent (ErrorJson 401 "Acesso negado. Token não fornecido."), w).
Proof.
  intros Ht.
  unfold IndexJs.post_api_pedidos, IndexJs.post_api_finalizar,
    ServerJs.post_api_pedidos, ServerJs.get_api_pedidos,
    IndexJs.guarded, ServerJs.guarded.
  rewrite (index_gate_closed req w Ht), (server_gate_closed req w Ht).
  repeat split.
Qed.

(** A token that reaches the auth service is logged as one call. *)
Lemma index_gate_exchanges req w t :
  token_of (header "authorization" (headers req)) = Some t ->
  t <> EmptyString ->
  trace (snd (IndexJs.requireAuth svc req w))
  = (trace w ++ [AuthGetUser t])%list.
Proof.
  unfold IndexJs.requireAuth. intros -> Ht.
  destruct t as [|c t]; [congruence|].
  destruct (gu_error (getUser svc (String c t))),
    (gu_user (getUser svc (String c t))); reflexivity.
Qed.

Lemma server_gate_exchanges req w t :
  token_of (header "authorization" (headers req)) = Some t ->
  t <> EmptyString ->
  trace (snd (ServerJs.requireAuth svc req w))
  = (trace w ++ [AuthGetUser t])%list.
Proof.
  unfold ServerJs.requireAuth. intros -> Ht.
  destruct t as [|c t]; [congruence|].
  destruct (gu_error (getUser svc (String c t))),
    (gu_user (getUser svc (String c t))); reflexivity.
Qed.

(** C4.  A request to a guarded route (POST /api/pedidos of either entry
    point, POST /api/finalizar, GET /api/pedidos) that carries no
    Authorization header is answered 401, and the world after the
    request is the world before it: no call to the auth service or to a
    table has been logged. *)
Theorem missing_header_is_unauthenticated req w :
  header "authorization" (headers req) = None ->
  IndexJs.post_api_pedidos svc req w
    = (Sent (ErrorJson 401 "Acesso negado."), w)
  /\ IndexJs.post_api_finalizar svc req w
    = (Sent (ErrorJson 401 "Acesso negado."), w)
  /\ ServerJs.post_api_pedidos svc req w
    = (Sent (ErrorJson 401 "Acesso negado. Token não fornecido."), w)
  /\ ServerJs.get_api_pedidos svc req w
    = (Sent (ErrorJson 401 "Acesso negado. Token não fornecido."), w).
Proof.
  intros Hh. apply tokenless_routes. left. now rewrite Hh.
Qed.

(** C10.  When the Authorization header is present but splitting it at
    spaces gives no second segment, or an empty one, every guarded route
    answers 401 and the world is unchanged: nothing was sent to the auth
    service or the store. *)
Theorem header_without_token_is_unauthenticated req w h :
  header "authorization" (headers req) = Some h ->
  nth_error (split " " h) 1 = None
  \/ nth_error (split " " h) 1 = Some EmptyString ->
  IndexJs.post_api_pedidos svc req w
    = (Sent (ErrorJson 401 "Acesso negado."), w)
  /\ IndexJs.post_api_finalizar svc req w
    = (Sent (ErrorJson 401 "Acesso negado."), w)
  /\ ServerJs.post_api_pedidos svc req w
    = (Sent (ErrorJson 401 "Acesso negado. Token não fornecido."), w)
  /\ ServerJs.get_api_pedidos svc req w
    = (Sent (ErrorJson 401 "Acesso negado. Token não fornecido."), w).
Proof.
  intros Hh Hseg. apply tokenless_routes. rewrite Hh.
  destruct h as [|c h]; [right; reflexivity|].
  exact Hseg.
Qed.


(** In particular the scheme word is free: [Basic], [Token] or anything
    else in front of the credential opens the same exchange as [Bearer]. *)
Lemma any_scheme_word_is_exchanged req w scheme token :
  spaceless scheme = true -> spaceless token = true ->
  token <> EmptyString ->
  header "authorization" (headers req) = Some (scheme ++ String " " token) ->
  trace (snd (IndexJs.requireAuth svc req w))
    = (trace w ++ [AuthGetUser token])%list
  /\ trace (snd (ServerJs.requireAuth svc req w))
    = (trace w ++ [AuthGetUser token])%list.
Proof.
  intros Hs Ht Hne Hh.
  assert (token_of (header "authorization" (headers req)) = Some token) as E.
  { rewrite Hh. now apply token_of_two_words. }
  split; [now apply index_gate_exchanges | now apply server_gate_exchanges].
Qed.

End WithService.

Import Fixtures.

Lemma missing_header_witness :
  IndexJs.post_api_pedidos demo (without_header order_body) empty_store
    = (Sent (ErrorJson 401 "Acesso negado."), empty_store)
  /\ IndexJs.post_api_finalizar demo (without_header order_body) empty_store
    = (Sent (ErrorJson 401 "Acesso negado."), empty_store)
  /\ ServerJs.post_api_pedidos demo (without_header order_body) empty_store
    = (Sent (ErrorJson 401 "Acesso negado. Token não fornecido."),
       empty_store)
  /\ ServerJs.get_api_pedidos demo (without_header order_body) empty_store
    = (Sent (ErrorJson 401 "Acesso negado. Token não fornecido."),
       empty_store).
Proof.
  apply (missing_header_is_unauthenticated demo (without_header order_body)
           empty_store).
  reflexivity.
Defined.

(** The raw token with no scheme word, the word alone, and the word
    followed by a space. *)
Lemma header_without_token_witness :
  (fst (ServerJs.get_api_pedidos demo (with_header "tok-ana" []) empty_store)
   = Sent (ErrorJson 401 "Acesso negado. Token não fornecido."))
  /\ (fst (ServerJs.get_api_pedidos demo (with_header "Bearer" []) empty_store)
      = Sent (ErrorJson 401 "Acesso negado. Token não fornecido."))
  /\ (fst (ServerJs.get_api_pedidos demo (with_header "Bearer " [])
             empty_store)
      = Sent (ErrorJson 401 "Acesso negado. Token não fornecido.")).
Proof.
  split; [|split].
  - exact (f_equal fst (proj2 (proj2 (proj2
      (header_without_token_is_unauthenticated demo
         (with_header "tok-ana" []) empty_store "tok-ana"
         eq_refl (or_introl eq_refl)))))).
  - exact (f_equal fst (proj2 (proj2 (proj2
      (header_without_token_is_unauthenticated demo
         (with_header "Bearer" []) empty_store "Bearer"
         eq_refl (or_introl eq_refl)))))).
  - exact (f_equal fst (proj2 (proj2 (proj2
      (header_without_token_is_unauthenticated demo
         (with_header "Bearer " []) empty_store "Bearer "
         eq_refl (or_intror eq_refl)))))).
Defined.




End Gateway.

(* ================================================================== *)
(** ** Requests with and without a parsed body *)

Module Bodies.
Import Json Js Supabase.

Section WithNumbers.
Context `{NumberOps}.

Lemma bodyless_has_no_field req k : parsed req = None -> get k (body req) = None.
Proof. unfold body. now intros ->. Qed.

(** A property that is there shows that [req.body] is an object. *)
Lemma field_has_body k req v :
  get k (body req) = Some v -> exists b, parsed req = Some b.
Proof.
  unfold body. destruct (parsed req) as [b|]; [eauto | discriminate].
Qed.

Lemma truthy_has_body k req :
  truthy (get k (body req)) = true -> exists b, parsed req = Some b.
Proof.
  destruct (get k (body req)) as [v|] eqn:E; [|discriminate].
  intros _. exact (field_has_body k req v E).
Qed.

End WithNumbers.

(** Uses a truthy field to settle the test on [req.body]. *)
Ltac with_body H :=
  let b := fresh "b" in
  let Hb := fresh "Hb" in
  destruct (truthy_has_body _ _ H) as [b Hb]; rewrite Hb.

End Bodies.

(* ================================================================== *)
(** ** Order submission *)

Module Submission.
Import Json Js Supabase Bodies.

Section WithService.
Context `{NumberOps}.
Variable svc : Service.

(** The gate resolves the request's token [t] to the identity [uid]. *)
Definition resolved (req : Request) (t uid : string) : Prop :=
  token_of (header "authorization" (headers req)) = Some t
  /\ t <> EmptyString
  /\ gu_error (getUser svc t) = None
  /\ gu_user (getUser svc t) = Some uid.

Lemma index_gate_opens req w t uid :
  resolved req t uid ->
  IndexJs.requireAuth svc req w = (Next uid, log (AuthGetUser t) w).
Proof.
  intros (Ht & Hne & He & Hu). unfold IndexJs.requireAuth.
  rewrite Ht. destruct t as [|c t]; [congruence|].
  now rewrite He, Hu.
Qed.

Lemma server_gate_opens req w t uid :
  resolved req t uid ->
  ServerJs.requireAuth svc req w = (Next uid, log (AuthGetUser t) w).
Proof.
  intros (Ht & Hne & He & Hu). unfold ServerJs.requireAuth.
  rewrite Ht. destruct t as [|c t]; [congruence|].
  now rewrite He, Hu.
Qed.

Lemma index_gate_next req w uid w1 :
  IndexJs.requireAuth svc req w = (Next uid, w1) ->
  exists t, resolved req t uid /\ w1 = log (AuthGetUser t) w.
Proof.
  unfold IndexJs.requireAuth, resolved.
  destruct (token_of (header "authorization" (headers req))) as [[|c t]|];
    try discriminate.
  destruct (gu_error (getUser svc (String c t))) eqn:He,
    (gu_user (getUser svc (String c t))) eqn:Hu; try discriminate.
  intros E. injection E as <- <-. exists (String c t).
  repeat split; auto. discriminate.
Qed.

Lemma server_gate_next req w uid w1 :
  ServerJs.requireAuth svc req w = (Next uid, w1) ->
  exists t, resolved req t uid /\ w1 = log (AuthGetUser t) w.
Proof.
  unfold ServerJs.requireAuth, resolved.
  destruct (token_of (header "authorization" (headers req))) as [[|c t]|];
    try discriminate.
  destruct (gu_error (getUser svc (String c t))) eqn:He,
    (gu_user (getUser svc (String c t))) eqn:Hu; try discriminate.
  intros E. injection E as <- <-. exists (String c t).
  repeat split; auto. discriminate.
Qed.

(** Two identities resolved from one request are the same. *)
Lemma resolved_unique req t uid t' uid' :
  resolved req t uid -> resolved req t' uid' -> t = t' /\ uid = uid'.
Proof.
  intros (Ht & _ & _ & Hu) (Ht' & _ & _ & Hu').
  assert (t = t') as <- by congruence. split; congruence.
Qed.

(** What each submission handler stores when it answers 201. *)
Lemma index_pedidos_stored req uid w st m p w' :
  IndexJs.pedidos_handler svc req uid w = (Sent (PedidoJson st m p), w') ->
  user_id (cols p) = uid /\ pedidos w' = (pedidos w ++ [p])%list.
Proof.
  unfold IndexJs.pedidos_handler, insert_pedido.
  destruct (parsed req); [|discriminate].
  destruct (_ || _); [discriminate|].
  destruct (db_error svc _); [discriminate|].
  intros E. injection E as _ _ <- <-. split; reflexivity.
Qed.

Lemma index_finalizar_stored req uid w st m p w' :
  IndexJs.finalizar_handler svc req uid w
  = (Sent (FinalizadoJson st m p), w') ->
  f_user_id (f_cols p) = uid
  /\ pedidos_finalizados w' = (pedidos_finalizados w ++ [p])%list.
Proof.
  unfold IndexJs.finalizar_handler, insert_finalizado.
  destruct (parsed req); [|discriminate].
  destruct (_ || _); [discriminate|].
  destruct (db_error svc _); [discriminate|].
  intros E. injection E as _ _ <- <-. split; reflexivity.
Qed.

Lemma server_pedidos_stored req uid w st m p w' :
  ServerJs.pedidos_handler svc req uid w = (Sent (PedidoJson st m p), w') ->
  user_id (cols p) = uid /\ pedidos w' = (pedidos w ++ [p])%list.
Proof.
  unfold ServerJs.pedidos_handler, insert_pedido.
  destruct (parsed req); [|discriminate].
  destruct (_ || _); [discriminate|].
  destruct (db_error svc _); [discriminate|].
  intros E. injection E as _ _ <- <-. split; reflexivity.
Qed.

(** The body properties the submission handlers read. *)
Definition fields_read : list string :=
  [ "items"; "total"; "details"; "nome"; "telefone"; "endereco";
    "pagamento"; "observacoes"; "itens" ].

(** [req'] is [req] but for the body property [f]. *)
Definition differ_only_in (f : string) (req req' : Request) : Prop :=
  headers req' = headers req
  /\ (parsed req' = None <-> parsed req = None)
  /\ forall k, k <> f -> get k (body req') = get k (body req).

Ltac same_field Hf Hb k :=
  rewrite (Hb k) by (intros <-; apply Hf; simpl; tauto).

Lemma handlers_ignore_unread f req req' uid w :
  ~ In f fields_read ->
  differ_only_in f req req' ->
  IndexJs.pedidos_handler svc req' uid w
  = IndexJs.pedidos_handler svc req uid w
  /\ IndexJs.finalizar_handler svc req' uid w
     = IndexJs.finalizar_handler svc req uid w
  /\ ServerJs.pedidos_handler svc req' uid w
     = ServerJs.pedidos_handler svc req uid w.
Proof.
  intros Hf (_ & [Hnone Hnone'] & Hb).
  unfold IndexJs.pedidos_handler, IndexJs.finalizar_handler,
    ServerJs.pedidos_handler.
  destruct (parsed req) as [b|], (parsed req') as [b'|].
  - same_field Hf Hb "items". same_field Hf Hb "total".
    same_field Hf Hb "details". same_field Hf Hb "nome".
    same_field Hf Hb "telefone". same_field Hf Hb "endereco".
    same_field Hf Hb "pagamento". same_field Hf Hb "observacoes".
    same_field Hf Hb "itens".
    repeat split.
  - specialize (Hnone eq_refl). discriminate.
  - specialize (Hnone' eq_refl). discriminate.
  - repeat split.
Qed.

(** A property the handlers do not read, [user_id] for one, has no
    effect on what they answer or store. *)
Lemma unread_field_is_ignored f req req' w :
  ~ In f fields_read ->
  differ_only_in f req req' ->
  IndexJs.post_api_pedidos svc req' w = IndexJs.post_api_pedidos svc req w
  /\ IndexJs.post_api_finalizar svc req' w
     = IndexJs.post_api_finalizar svc req w
  /\ ServerJs.post_api_pedidos svc req' w
     = ServerJs.post_api_pedidos svc req w.
Proof.
  intros Hf Hd. pose proof Hd as (Hh & _).
  unfold IndexJs.post_api_pedidos, IndexJs.post_api_finalizar,
    ServerJs.post_api_pedidos, IndexJs.guarded, ServerJs.guarded,
    IndexJs.requireAuth, ServerJs.requireAuth.
  rewrite Hh.
  repeat split;
    match goal with
    | |- (let (_, _) := ?g in _) = _ => destruct g as [[r|uid] w1]
    end;
    try reflexivity;
    apply (handlers_ignore_unread f req req' uid w1 Hf Hd).
Qed.

Lemma user_id_is_not_read : ~ In "user_id" fields_read.
Proof. simpl. intuition discriminate. Qed.

(** The row the store creates in world [w] from the supplied columns. *)
Definition created (w : World) (row : NovoPedido) : Pedido :=
  {| id := next_id w; created_at := now w; cols := row |}.

(** A submission that passes the gate and the validation, with the table
    answering, is stored and answered 201. *)
Lemma server_pedidos_accepted req w t uid :
  resolved req t uid ->
  truthy (get "items" (body req)) = true ->
  truthy (get "total" (body req)) = true ->
  db_error svc (DbInsert "pedidos") = false ->
  exists w',
    ServerJs.post_api_pedidos svc req w
    = (Sent (PedidoJson 201 "Pedido finalizado com sucesso!"
               (created w
                  {| user_id := uid;
                     items_json := JSON_stringify (get "items" (body req));
                     total := get "total" (body req);
                     status := "Pendente";
                     details_json := None |})), w')
    /\ pedidos w'
       = (pedidos w
          ++ [created w
                {| user_id := uid;
                   items_json := JSON_stringify (get "items" (body req));
                   total := get "total" (body req);
                   status := "Pendente";
                   details_json := None |}])%list.
Proof.
  intros Hr Hi Ht Hdb.
  unfold ServerJs.post_api_pedidos, ServerJs.guarded.
  rewrite (server_gate_opens req w t uid Hr).
  unfold ServerJs.pedidos_handler, insert_pedido.
  with_body Hi. rewrite Hi, Ht, Hdb. cbn [negb orb].
  eexists. split; reflexivity.
Qed.

Lemma index_pedidos_accepted req w t uid :
  resolved req t uid ->
  truthy (get "items" (body req)) = true ->
  truthy (get "total" (body req)) = true ->
  truthy (get "details" (body req)) = true ->
  db_error svc (DbInsert "pedidos") = false ->
  exists w',
    IndexJs.post_api_pedidos svc req w
    = (Sent (PedidoJson 201 "Pedido criado!"
               (created w
                  {| user_id := uid;
                     items_json := JSON_stringify (get "items" (body req));
                     total := get "total" (body req);
                     status := "Pendente";
                     details_json :=
                       JSON_stringify (get "details" (body req)) |})), w')
    /\ pedidos w'
       = (pedidos w
          ++ [created w
                {| user_id := uid;
                   items_json := JSON_stringify (get "items" (body req));
                   total := get "total" (body req);
                   status := "Pendente";
                   details_json :=
                     JSON_stringify (get "details" (body req)) |}])%list.
Proof.
  intros Hr Hi Ht Hd Hdb.
  unfold IndexJs.post_api_pedidos, IndexJs.guarded.
  rewrite (index_gate_opens req w t uid Hr).
  unfold IndexJs.pedidos_handler, insert_pedido.
  with_body Hi. rewrite Hi, Ht, Hd, Hdb. cbn [negb orb].
  eexists. split; reflexivity.
Qed.

(** The six fields POST /api/finalizar requires. *)
Definition deliverable (req : Request) : Prop :=
  truthy (get "nome" (body req)) = true
  /\ truthy (get "telefone" (body req)) = true
  /\ truthy (get "endereco" (body req)) = true
  /\ truthy (get "pagamento" (body req)) = true
  /\ truthy (get "itens" (body req)) = true
  /\ truthy (get "total" (body req)) = true.

Lemma index_finalizar_accepted req w t uid :
  resolved req t uid ->
  deliverable req ->
  db_error svc (DbInsert "pedidos_finalizados") = false ->
  exists p w',
    IndexJs.post_api_finalizar svc req w
    = (Sent (FinalizadoJson 201 "Pedido finalizado com sucesso!" p), w')
    /\ f_user_id (f_cols p) = uid
    /\ pedidos_finalizados w' = (pedidos_finalizados w ++ [p])%list.
Proof.
  intros Hr (Hn & Hte & He & Hp & Hi & Ht) Hdb.
  unfold IndexJs.post_api_finalizar, IndexJs.guarded.
  rewrite (index_gate_opens req w t uid Hr).
  unfold IndexJs.finalizar_handler, insert_finalizado.
  with_body Hn. rewrite Hn, Hte, He, Hp, Hi, Ht, Hdb. cbn [negb orb].
  eexists _, _. repeat split.
Qed.

(** C2.  Let the gate resolve the request's token to [uid].  A valid
    submission is stored under [uid]: when the fields a route requires
    are truthy and the insert succeeds, POST /api/pedidos (either entry
    point) and POST /api/finalizar answer 201 with a row that is the one
    appended to the table and whose [user_id] is [uid].  Conversely,
    whenever one of these routes answers with a created row, that row is
    the one appended and it is owned by [uid].  And a request that
    differs only in a body property the handlers do not read ([user_id]
    is one) gets the same answer and leaves the same world, so the stored
    owner does not depend on it. *)
Theorem owner_is_the_resolved_identity req w t uid :
  resolved req t uid ->
  (truthy (get "items" (body req)) = true ->
   truthy (get "total" (body req)) = true ->
   db_error svc (DbInsert "pedidos") = false ->
   (exists p w',
       ServerJs.post_api_pedidos svc req w
       = (Sent (PedidoJson 201 "Pedido finalizado com sucesso!" p), w')
       /\ user_id (cols p) = uid
       /\ pedidos w' = (pedidos w ++ [p])%list)
   /\ (truthy (get "details" (body req)) = true ->
       exists p w',
         IndexJs.post_api_pedidos svc req w
         = (Sent (PedidoJson 201 "Pedido criado!" p), w')
         /\ user_id (cols p) = uid
         /\ pedidos w' = (pedidos w ++ [p])%list))
  /\ (deliverable req ->
      db_error svc (DbInsert "pedidos_finalizados") = false ->
      exists p w',
        IndexJs.post_api_finalizar svc req w
        = (Sent (FinalizadoJson 201 "Pedido finalizado com sucesso!" p), w')
        /\ f_user_id (f_cols p) = uid
        /\ pedidos_finalizados w' = (pedidos_finalizados w ++ [p])%list)
  /\ (forall st m p w',
      IndexJs.post_api_pedidos svc req w = (Sent (PedidoJson st m p), w') ->
      user_id (cols p) = uid
      /\ pedidos w' = (pedidos w ++ [p])%list)
  /\ (forall st m p w',
      IndexJs.post_api_finalizar svc req w
      = (Sent (FinalizadoJson st m p), w') ->
      f_user_id (f_cols p) = uid
      /\ pedidos_finalizados w' = (pedidos_finalizados w ++ [p])%list)
  /\ (forall st m p w',
      ServerJs.post_api_pedidos svc req w = (Sent (PedidoJson st m p), w') ->
      user_id (cols p) = uid
      /\ pedidos w' = (pedidos w ++ [p])%list)
  /\ ~ In "user_id" fields_read
  /\ (forall f req',
      ~ In f fields_read ->
      differ_only_in f req req' ->
      IndexJs.post_api_pedidos svc req' w = IndexJs.post_api_pedidos svc req w
      /\ IndexJs.post_api_finalizar svc req' w
         = IndexJs.post_api_finalizar svc req w
      /\ ServerJs.post_api_pedidos svc req' w
         = ServerJs.post_api_pedidos svc req w).
Proof.
  intros Hr. split; [|split; [|split; [|split; [|split; [|split]]]]].
  - intros Hi Ht Hdb. split.
    + destruct (server_pedidos_accepted req w t uid Hr Hi Ht Hdb)
        as (w' & E & Hp).
      eexists _, w'. split; [exact E|]. split; [reflexivity | exact Hp].
    + intros Hd.
      destruct (index_pedidos_accepted req w t uid Hr Hi Ht Hd Hdb)
        as (w' & E & Hp).
      eexists _, w'. split; [exact E|]. split; [reflexivity | exact Hp].
  - intros Hd Hdb. exact (index_finalizar_accepted req w t uid Hr Hd Hdb).
  - intros st m p w'. unfold IndexJs.post_api_pedidos, IndexJs.guarded.
    rewrite (index_gate_opens req w t uid Hr).
    exact (index_pedidos_stored req uid (log (AuthGetUser t) w) st m p w').
  - intros st m p w'. unfold IndexJs.post_api_finalizar, IndexJs.guarded.
    rewrite (index_gate_opens req w t uid Hr).
    exact (index_finalizar_stored req uid (log (AuthGetUser t) w) st m p w').
  - intros st m p w'. unfold ServerJs.post_api_pedidos, ServerJs.guarded.
    rewrite (server_gate_opens req w t uid Hr).
    exact (server_pedidos_stored req uid (log (AuthGetUser t) w) st m p w').
  - exact user_id_is_not_read.
  - intros f req'. apply unread_field_is_ignored.
Qed.

End WithService.

Import Fixtures.

(** Ana's session, and the same cart sent with a forged owner. *)
Definition ana_order : Request := with_header "Bearer tok-ana" order_body.

Definition forged_order : Request :=
  with_header "Bearer tok-ana" (("user_id", JStr "u-bia") :: order_body).

(** A body that satisfies all three submission routes, honest and with a
    forged owner. *)
Definition full_order : list (string * JsVal) :=
  [ ("items", cart); ("total", ten); ("details", delivery);
    ("nome", JStr "Ana"); ("telefone", JStr "11 99999-0000");
    ("endereco", JStr "Rua das Flores, 10"); ("pagamento", JStr "pix");
    ("itens", cart) ].

Definition honest : Request := with_header "Bearer tok-ana" full_order.

Definition forged : Request :=
  with_header "Bearer tok-ana" (("user_id", JStr "u-bia") :: full_order).

Lemma owner_witness :
  (exists p w',
      ServerJs.post_api_pedidos demo forged empty_store
      = (Sent (PedidoJson 201 "Pedido finalizado com sucesso!" p), w')
      /\ user_id (cols p) = "u-ana" /\ pedidos w' = [p])
  /\ (exists p w',
      IndexJs.post_api_pedidos demo forged empty_store
      = (Sent (PedidoJson 201 "Pedido criado!" p), w')
      /\ user_id (cols p) = "u-ana" /\ pedidos w' = [p])
  /\ (exists p w',
      IndexJs.post_api_finalizar demo forged empty_store
      = (Sent (FinalizadoJson 201 "Pedido finalizado com sucesso!" p), w')
      /\ f_user_id (f_cols p) = "u-ana" /\ pedidos_finalizados w' = [p])
  /\ IndexJs.post_api_pedidos demo forged empty_store
     = IndexJs.post_api_pedidos demo honest empty_store
  /\ IndexJs.post_api_finalizar demo forged empty_store
     = IndexJs.post_api_finalizar demo honest empty_store
  /\ ServerJs.post_api_pedidos demo forged empty_store
     = ServerJs.post_api_pedidos demo honest empty_store.
Proof.
  assert (resolved demo honest "tok-ana" "u-ana") as Hr.
  { repeat split. discriminate. }
  assert (resolved demo forged "tok-ana" "u-ana") as Hr'.
  { repeat split. discriminate. }
  assert (differ_only_in "user_id" honest forged) as Hs.
  { split; [reflexivity|]. split; [split; discriminate|].
    intros k Hk. cbn [body parsed forged honest with_header get].
    destruct (String.eqb_spec "user_id" k) as [E|_]; [congruence|reflexivity]. }
  pose proof (owner_is_the_resolved_identity demo forged empty_store
                "tok-ana" "u-ana" Hr')
    as (Hcart & Hdelivery & _).
  pose proof (owner_is_the_resolved_identity demo honest empty_store
                "tok-ana" "u-ana" Hr)
    as (_ & _ & _ & _ & _ & Hunread & Hsame).
  destruct (Hcart eq_refl eq_refl eq_refl) as [Hserver Hindex].
  split; [exact Hserver|]. split; [exact (Hindex eq_refl)|].
  split; [apply Hdelivery; [repeat split | reflexivity]|].
  exact (Hsame "user_id" forged Hunread Hs).
Defined.

(** C1.  An authenticated POST /api/pedidos whose [items] is the empty
    array and whose other fields are present is not refused: [![]] is
    [false] in JavaScript, so both entry points answer 201 and append a
    row whose [items_json] is the text of the empty array. *)
Theorem empty_cart_is_stored :
  (exists p w',
      ServerJs.post_api_pedidos demo
        (with_header "Bearer tok-ana"
           [("items", JArr []); ("total", JNum 10%Z)])
        empty_store
      = (Sent (PedidoJson 201 "Pedido finalizado com sucesso!" p), w')
      /\ items_json (cols p) = Some "[]"
      /\ pedidos w' = [p])
  /\ (exists p w',
      IndexJs.post_api_pedidos demo
        (with_header "Bearer tok-ana"
           [("items", JArr []); ("total", JNum 10%Z); ("details", delivery)])
        empty_store
      = (Sent (PedidoJson 201 "Pedido criado!" p), w')
      /\ items_json (cols p) = Some "[]"
      /\ pedidos w' = [p]).
Proof.
  split; eexists _, _; (split; [reflexivity | split; reflexivity]).
Qed.

End Submission.

(* ================================================================== *)
(** ** [order_by] sorts and keeps every row *)

Module OrderBy.
Import Supabase.

Section Sorting.
Variable A : Type.
Variable leb : A -> A -> bool.
Hypothesis leb_total : forall a b, leb a b = false -> leb b a = true.

Let before (a b : A) : Prop := leb a b = true.

Lemma insert_by_perm x l : Permutation (insert_by leb x l) (x :: l).
Proof.
  induction l as [|y l IH]; simpl.
  - apply Permutation_refl.
  - destruct (leb x y).
    + apply Permutation_refl.
    + apply Permutation_trans with (y :: x :: l).
      * now apply perm_skip.
      * apply perm_swap.
Qed.

Lemma order_by_perm l : Permutation (order_by leb l) l.
Proof.
  induction l as [|x l IH]; simpl.
  - apply perm_nil.
  - apply Permutation_trans with (x :: order_by leb l).
    + apply insert_by_perm.
    + now apply perm_skip.
Qed.

Lemma insert_by_head x y l :
  before y x -> HdRel before y l -> HdRel before y (insert_by leb x l).
Proof.
  intros Hyx Hl. destruct l as [|z l]; simpl.
  - now constructor.
  - destruct (leb x z); constructor; auto. now inversion Hl.
Qed.

Lemma insert_by_sorted x l :
  Sorted before l -> Sorted before (insert_by leb x l).
Proof.
  induction 1 as [|y l Hs IH Hh]; simpl.
  - repeat constructor.
  - destruct (leb x y) eqn:E.
    + constructor; [now constructor | now constructor].
    + constructor; [exact IH|].
      apply insert_by_head; [|exact Hh]. now apply leb_total.
Qed.

Lemma order_by_sorted l : Sorted before (order_by leb l).
Proof.
  induction l as [|x l IH]; simpl.
  - constructor.
  - now apply insert_by_sorted.
Qed.

End Sorting.

Lemma newest_first_total `{NumberOps} (a b : Pedido) :
  newest_first a b = false -> newest_first b a = true.
Proof.
  unfold newest_first. intros E. apply Z.leb_gt in E. apply Z.leb_le. lia.
Qed.

End OrderBy.

(* ================================================================== *)
(** ** Order history *)

Module History.
Import Json Js Supabase Submission.

Section WithService.
Context `{NumberOps}.
Variable svc : Service.

(** The rows of [w] that belong to [uid]. *)
Definition owned (uid : string) (w : World) : list Pedido :=
  filter (fun p => (user_id (cols p) =? uid)%string) (pedidos w).

(** The rows the query hands to the handler. *)
Definition selected (uid : string) (w : World) : list PedidoCols :=
  map project (order_by newest_first (owned uid w)).

Definition newer_or_same (a b : PedidoView) : Prop :=
  (c_created_at (row b) <= c_created_at (row a))%Z.

Lemma selected_in uid w c :
  In c (selected uid w) <->
  exists p, In p (pedidos w) /\ user_id (cols p) = uid /\ c = project p.
Proof.
  unfold selected, owned. rewrite in_map_iff. split.
  - intros (p & <- & Hp).
    apply (Permutation_in _ (OrderBy.order_by_perm _ newest_first _)) in Hp.
    apply filter_In in Hp as [Hp Hu]. apply String.eqb_eq in Hu. eauto.
  - intros (p & Hp & Hu & ->). exists p. split; [reflexivity|].
    apply (Permutation_in _
             (Permutation_sym (OrderBy.order_by_perm _ newest_first _))).
    apply filter_In. split; [assumption|]. now apply String.eqb_eq.
Qed.

Lemma selected_sorted uid w :
  Sorted (fun a b => (c_created_at b <= c_created_at a)%Z) (selected uid w).
Proof.
  unfold selected.
  pose proof (OrderBy.order_by_sorted _ newest_first
                OrderBy.newest_first_total (owned uid w)) as Hs.
  induction Hs as [|p l _ IH Hh]; simpl; constructor; [exact IH|].
  destruct Hh as [|q l Hpq]; simpl; constructor.
  unfold newest_first in Hpq. now apply Z.leb_le.
Qed.

(** [map] keeps the rows and their order and adds the parsed items. *)
Lemma formatados_rows l vs :
  ServerJs.pedidosFormatados l = Some vs ->
  map row vs = l
  /\ Forall (fun v => JSON_parse (c_items_json (row v)) = Some (items v)) vs.
Proof.
  revert vs. induction l as [|c l IH]; simpl; intros vs E.
  - injection E as <-. split; constructor.
  - destruct (JSON_parse (c_items_json c)) as [parsed|] eqn:Hp;
      [|discriminate].
    destruct (ServerJs.pedidosFormatados l) as [vs'|]; [|discriminate].
    injection E as <-. destruct (IH vs' eq_refl) as [Hm Hf].
    split; simpl; [now rewrite Hm | constructor; assumption].
Qed.

Lemma formatados_defined l :
  Forall (fun c => JSON_parse (c_items_json c) <> None) l ->
  exists vs, ServerJs.pedidosFormatados l = Some vs.
Proof.
  induction 1 as [|c l Hc _ [vs IH]]; simpl.
  - now exists [].
  - destruct (JSON_parse (c_items_json c)) as [parsed|]; [|congruence].
    rewrite IH. eauto.
Qed.

Lemma formatados_corrupt l c :
  In c l -> JSON_parse (c_items_json c) = None ->
  ServerJs.pedidosFormatados l = None.
Proof.
  induction l as [|c' l IH]; simpl; intros Hin Hc; [contradiction|].
  destruct Hin as [->|Hin].
  - now rewrite Hc.
  - destruct (JSON_parse (c_items_json c')); [|reflexivity].
    now rewrite (IH Hin Hc).
Qed.


Lemma server_gate_stop req w r w1 :
  ServerJs.requireAuth svc req w = (Stop r, w1) ->
  exists message, r = ErrorJson 401 message.
Proof.
  unfold ServerJs.requireAuth.
  destruct (token_of (header "authorization" (headers req))) as [[|c t]|];
    try (intros E; injection E as <- _; eauto).
  destruct (gu_error (getUser svc (String c t))),
    (gu_user (getUser svc (String c t)));
    intros E; try discriminate; injection E as <- _; eauto.
Qed.

Lemma history_sent req w st vs w' :
  ServerJs.get_api_pedidos svc req w = (Sent (PedidosJson st vs), w') ->
  exists t uid,
    resolved svc req t uid
    /\ ServerJs.pedidosFormatados (selected uid w) = Some vs.
Proof.
  unfold ServerJs.get_api_pedidos, ServerJs.guarded.
  destruct (ServerJs.requireAuth svc req w) as [[r|uid] w1] eqn:Hg.
  { destruct (server_gate_stop req w r w1 Hg) as [message ->]. discriminate. }
  destruct (server_gate_next svc req w uid w1 Hg) as (t & Hr & ->).
  unfold ServerJs.historico_handler, select_pedidos.
  destruct (db_error svc _); [discriminate|].
  change (map project _) with (selected uid w).
  destruct (ServerJs.pedidosFormatados (selected uid w)) as [vs'|] eqn:Hf;
    [|discriminate].
  intros E. injection E as _ <- _. exists t, uid. split; [exact Hr | exact Hf].
Qed.

(** C3.  Whenever GET /api/pedidos answers with a list of orders, the
    gate has resolved the caller to some identity [uid], and: every order
    of the list is a stored row whose [user_id] is [uid], with its
    [items] parsed from that row's [items_json]; the list holds exactly
    the caller's rows (it is a permutation of them); and it is sorted by
    [created_at], newest first: no order is older than one listed after
    it. *)
Theorem history_is_own_newest_first req w st vs w' :
  ServerJs.get_api_pedidos svc req w = (Sent (PedidosJson st vs), w') ->
  exists t uid,
    resolved svc req t uid
    /\ (forall v, In v vs ->
          exists p, In p (pedidos w) /\ user_id (cols p) = uid
                    /\ row v = project p
                    /\ JSON_parse (items_json (cols p)) = Some (items v))
    /\ Permutation (map row vs) (map project (owned uid w))
    /\ StronglySorted newer_or_same vs.
Proof.
  intros E. destruct (history_sent req w st vs w' E) as (t & uid & Hr & Hf).
  exists t, uid. split; [exact Hr|].
  destruct (formatados_rows _ _ Hf) as [Hm Hp].
  split; [|split].
  - intros v Hv.
    assert (In (row v) (selected uid w)) as Hin.
    { rewrite <- Hm. now apply in_map. }
    apply selected_in in Hin as (p & Hpw & Hu & Hrow).
    exists p. repeat split; auto.
    rewrite Forall_forall in Hp. specialize (Hp v Hv).
    now rewrite Hrow in Hp.
  - rewrite Hm. unfold selected. apply Permutation_map.
    apply OrderBy.order_by_perm.
  - apply Sorted_StronglySorted.
    { intros a b c Hab Hbc. unfold newer_or_same in *. lia. }
    pose proof (selected_sorted uid w) as Hs. rewrite <- Hm in Hs.
    clear -Hs. induction vs as [|v vs IH]; [constructor|].
    simpl in Hs. inversion Hs as [|? ? Hs' Hh]; subst.
    constructor; [now apply IH|].
    destruct vs as [|v' vs]; constructor.
    simpl in Hh. now inversion Hh.
Qed.

(** C5, as the code has it.  Let the gate resolve the caller and let one
    of the caller's rows hold text that [JSON.parse] rejects.  When the
    select succeeds the history handler sends nothing: the [SyntaxError]
    leaves the handler after the [getUser] and the select, so there is no
    order list, partial or otherwise, and no error reply either.  When
    the select itself fails the reply is the 500 of that failure.  In
    neither case is a list of orders sent, and the tables are
    untouched. *)
Theorem corrupt_row_throws req w t uid p :
  resolved svc req t uid ->
  In p (pedidos w) ->
  user_id (cols p) = uid ->
  JSON_parse (items_json (cols p)) = None ->
  (db_error svc (DbSelect "pedidos") = false ->
   ServerJs.get_api_pedidos svc req w
   = (Thrown SyntaxError, log (DbSelect "pedidos") (log (AuthGetUser t) w)))
  /\ (db_error svc (DbSelect "pedidos") = true ->
      ServerJs.get_api_pedidos svc req w
      = (Sent (ErrorJson 500 "Falha ao carregar seus pedidos."),
         log (DbSelect "pedidos") (log (AuthGetUser t) w)))
  /\ (forall st vs,
        fst (ServerJs.get_api_pedidos svc req w) <> Sent (PedidosJson st vs))
  /\ pedidos (snd (ServerJs.get_api_pedidos svc req w)) = pedidos w
  /\ pedidos_finalizados (snd (ServerJs.get_api_pedidos svc req w))
     = pedidos_finalizados w.
Proof.
  intros Hr Hp Hu Hc.
  assert (ServerJs.pedidosFormatados (selected uid w) = None) as Hf.
  { apply (formatados_corrupt (selected uid w) (project p));
      [|exact Hc].
    apply selected_in. eauto. }
  unfold ServerJs.get_api_pedidos, ServerJs.guarded.
  rewrite (server_gate_opens svc req w t uid Hr).
  unfold ServerJs.historico_handler, select_pedidos.
  destruct (db_error svc (DbSelect "pedidos")).
  - split; [discriminate|]. split; [reflexivity|].
    split; [discriminate|]. split; reflexivity.
  - change (map project _) with (selected uid w). rewrite Hf.
    split; [reflexivity|]. split; [discriminate|].
    split; [discriminate|]. split; reflexivity.
Qed.

End WithService.

Section RoundTrip.
Context `{ops : NumberOps} `{!NumberLaws}.
Variable svc : Service.

(** Every row of [uid] holds text that parses: true of a store filled
    through the submission handlers. *)
Definition readable (uid : string) (w : World) : Prop :=
  forall p, In p (pedidos w) -> user_id (cols p) = uid ->
            JSON_parse (items_json (cols p)) <> None.




End RoundTrip.

Import Fixtures ZNumberFacts.

Definition ana_history : Request := with_header "Bearer tok-ana" [].

Lemma ana_resolved (b : list (string * JsVal)) :
  resolved demo (with_header "Bearer tok-ana" b) "tok-ana" "u-ana".
Proof. repeat split. discriminate. Defined.

(** Rows of two customers, stored out of time order. *)
Definition mixed_store : World :=
  with_pedidos [ stored 1 10 "u-ana" "[1]"; stored 2 30 "u-bia" "[2]";
                 stored 3 20 "u-ana" "[3]" ].

Definition listed (p : Pedido) (parsed : JsVal) : PedidoView :=
  {| row := project p; items := parsed |}.

Definition ana_orders : list PedidoView :=
  [ listed (stored 3 20 "u-ana" "[3]") (JArr [JNum 3%Z]);
    listed (stored 1 10 "u-ana" "[1]") (JArr [JNum 1%Z]) ].

Lemma history_witness :
  exists t uid,
    resolved demo ana_history t uid
    /\ (forall v, In v ana_orders ->
          exists p, In p (pedidos mixed_store) /\ user_id (cols p) = uid
                    /\ row v = project p
                    /\ JSON_parse (items_json (cols p)) = Some (items v))
    /\ Permutation (map row ana_orders) (map project (owned uid mixed_store))
    /\ StronglySorted newer_or_same ana_orders.
Proof.
  apply (history_is_own_newest_first demo ana_history mixed_store 200
           ana_orders
           (snd (ServerJs.get_api_pedidos demo ana_history mixed_store))).
  reflexivity.
Defined.

(** The store answers every select with an error. *)
Definition select_fails : Service :=
  {| getUser := getUser demo; signUp := signUp demo;
     signInWithPassword := signInWithPassword demo;
     db_error := fun c => match c with DbSelect _ => true | _ => false end |}.

(** One of Ana's rows holds text that is not JSON. *)
Definition corrupt_store : World :=
  with_pedidos [ stored 1 10 "u-ana" "[1]"; stored 2 20 "u-ana" "{oops" ].

(** The specification asks for an error reply; the handler sends no
    reply. *)
Lemma corrupt_row_gets_no_reply :
  fst (ServerJs.get_api_pedidos demo ana_history corrupt_store)
  = Thrown SyntaxError
  /\ ~ exists st message,
        fst (ServerJs.get_api_pedidos demo ana_history corrupt_store)
        = Sent (ErrorJson st message).
Proof.
  split; [reflexivity|].
  intros (st & message & E). vm_compute in E. discriminate E.
Qed.

Lemma corrupt_row_witness :
  ServerJs.get_api_pedidos demo ana_history corrupt_store
  = (Thrown SyntaxError,
     log (DbSelect "pedidos") (log (AuthGetUser "tok-ana") corrupt_store))
  /\ ServerJs.get_api_pedidos select_fails ana_history corrupt_store
     = (Sent (ErrorJson 500 "Falha ao carregar seus pedidos."),
        log (DbSelect "pedidos") (log (AuthGetUser "tok-ana") corrupt_store)).
Proof.
  split.
  - apply (corrupt_row_throws demo ana_history corrupt_store "tok-ana" "u-ana"
             (stored 2 20 "u-ana" "{oops") (ana_resolved []));
      [right; left; reflexivity | reflexivity | reflexivity | reflexivity].
  - apply (corrupt_row_throws select_fails ana_history corrupt_store
             "tok-ana" "u-ana" (stored 2 20 "u-ana" "{oops"));
      [repeat split; discriminate | right; left; reflexivity | reflexivity
      | reflexivity | reflexivity].
Defined.



End History.

(* ================================================================== *)
(** ** Registration *)

Module Registration.
Import Json Js Supabase Bodies.

Section WithService.
Context `{NumberOps}.
Variable svc : Service.

(** C6, as the code has it.  When [auth.signUp] answers with an error
    whose message is [m], both entry points reply 400 and the only call
    made is that [signUp]: no table was touched.  The second entry point
    sends [m] itself unless [m] is empty; [index.js] sends [m] itself
    only when [m] is not empty and mentions neither an address that
    cannot be validated nor an invalid format, and a fixed text of its
    own in those two cases.  When [m] is empty both send the text
    'Erro no processo de cadastro.' in its place. *)
Theorem rejected_sign_up_is_reported req w m :
  truthy (get "email" (body req)) = true ->
  truthy (get "password" (body req)) = true ->
  truthy (get "nome" (body req)) = true ->
  su_error (signUp svc (get "email" (body req)) (get "password" (body req)))
  = Some m ->
  (exists e,
      IndexJs.post_api_auth_register svc req w
      = (Sent (ErrorJson 400 e),
         log (AuthSignUp (get "email" (body req)) (get "password" (body req)))
           w)
      /\ (includes "Unable to validate email address" m = true ->
          e = "O e-mail informado é inválido. Verifique se está no formato correto.")
      /\ (includes "Unable to validate email address" m = false ->
          includes "invalid format" m = true ->
          e = "Formato de e-mail inválido.")
      /\ (includes "Unable to validate email address" m = false ->
          includes "invalid format" m = false ->
          m <> EmptyString -> e = m)
      /\ (m = EmptyString -> e = "Erro no processo de cadastro."))
  /\ (exists e,
      ServerJs.post_api_auth_register svc req w
      = (Sent (ErrorJson 400 e),
         log (AuthSignUp (get "email" (body req)) (get "password" (body req)))
           w)
      /\ (m <> EmptyString -> e = m)
      /\ (m = EmptyString -> e = "Erro no processo de cadastro.")).
Proof.
  intros He Hp Hn Hm.
  unfold IndexJs.post_api_auth_register, ServerJs.post_api_auth_register.
  with_body He. rewrite He, Hp, Hn, Hm. cbn [negb orb].
  unfold IndexJs.register_catch, ServerJs.register_catch.
  split.
  - destruct m as [|c m].
    + eexists. split; [reflexivity|].
      split; [intros E; vm_compute in E; discriminate E|].
      split; [intros _ E; vm_compute in E; discriminate E|].
      split; [congruence | reflexivity].
    + destruct (includes "Unable to validate email address" (String c m));
        [|destruct (includes "invalid format" (String c m))];
        (eexists; split; [reflexivity|]; repeat split; congruence).
  - destruct m as [|c m];
      (eexists; split; [reflexivity|]; split; congruence).
Qed.

End WithService.

Import Fixtures.

Definition sign_up (email : string) : Request :=
  without_header [("email", JStr email); ("password", JStr "segredo1");
                  ("nome", JStr "Ana")].

(** The auth service refuses a malformed address with a message of its
    own; [index.js] answers with a different text. *)
Lemma upstream_message_is_replaced :
  su_error (signUp demo (get "email" (body (sign_up "ana@")))
              (get "password" (body (sign_up "ana@"))))
  = Some "Unable to validate email address: invalid format"
  /\ fst (IndexJs.post_api_auth_register demo (sign_up "ana@") empty_store)
     = Sent (ErrorJson 400
               "O e-mail informado é inválido. Verifique se está no formato correto.")
  /\ fst (IndexJs.post_api_auth_register demo (sign_up "ana@") empty_store)
     <> Sent (ErrorJson 400
                "Unable to validate email address: invalid format").
Proof.
  split; [reflexivity|]. split; [reflexivity|].
  intros E. vm_compute in E. discriminate E.
Qed.

(** An address already in use: the upstream message reaches the client
    from both entry points, and only [signUp] was called. *)
Lemma rejected_sign_up_witness :
  fst (IndexJs.post_api_auth_register demo (sign_up "ana@example.com")
         empty_store)
  = Sent (ErrorJson 400 "User already registered")
  /\ fst (ServerJs.post_api_auth_register demo (sign_up "ana@example.com")
            empty_store)
     = Sent (ErrorJson 400 "User already registered").
Proof.
  destruct (rejected_sign_up_is_reported demo (sign_up "ana@example.com")
              empty_store "User already registered"
              eq_refl eq_refl eq_refl eq_refl)
    as [(e & Hi & _ & _ & Hsame & _) (e' & Hs & Hsame' & _)].
  rewrite Hi, Hs. cbn [fst].
  rewrite (Hsame eq_refl eq_refl), Hsame'; [split; reflexivity | | ];
    discriminate.
Defined.

End Registration.

(* ================================================================== *)
(** ** Menu grouping *)

Module Menu.
Import Json Js Supabase.

Section Grouping.
Context `{NumberOps}.

(** [item.category || "Outros"]. *)
Definition label (item : MenuItem) : string :=
  match category item with
  | None => "Outros"
  | Some EmptyString => "Outros"
  | Some c => c
  end.

(** The items filed under [k], in the order they were filed. *)
Fixpoint bucket (k : string) (g : list (string * list MenuItem))
  : list MenuItem :=
  match g with
  | [] => []
  | (k', xs) :: r => if (k' =? k)%string then xs else bucket k r
  end.

(** The rows of the menu whose label is [k], in menu order. *)
Definition labelled (k : string) (menu : list MenuItem) : list MenuItem :=
  filter (fun item => (label item =? k)%string) menu.

(** No own property of the accumulator carries an inherited name. *)
Definition plain (g : list (string * list MenuItem)) : Prop :=
  Forall (fun kv => inherited (fst kv) = false) g.

Lemma agrupar_item_files acc item :
  inherited (label item) = false ->
  exists acc',
    IndexJs.agrupar_item acc item = inr acc'
    /\ (plain acc -> plain acc')
    /\ forall k,
        bucket k acc'
        = (bucket k acc
           ++ (if (label item =? k)%string then [item] else []))%list.
Proof.
  intros Hl. unfold IndexJs.agrupar_item. fold (label item).
  induction acc as [|[k' xs] acc (acc' & IH & Hplain & Hb)].
  - rewrite Hl. eexists. split; [reflexivity|]. split.
    + intros _. repeat constructor. exact Hl.
    + intros k. simpl. destruct (label item =? k)%string; reflexivity.
  - cbn iota beta. destruct (String.eqb_spec k' (label item)) as [E|Hne].
    + eexists. split; [reflexivity|]. split.
      * intros Hp. inversion Hp; subst. constructor; assumption.
      * intros k. simpl. rewrite E.
        destruct (label item =? k)%string; [reflexivity|].
        now rewrite app_nil_r.
    + rewrite IH. eexists. split; [reflexivity|]. split.
      * intros Hp. inversion Hp; subst.
        constructor; [assumption | now apply Hplain].
      * intros k. simpl. destruct (String.eqb_spec k' k) as [E|_].
        -- destruct (String.eqb_spec (label item) k) as [E'|_];
             [congruence | now rewrite app_nil_r].
        -- apply Hb.
Qed.

Lemma agrupar_item_throws acc item :
  plain acc ->
  inherited (label item) = true ->
  IndexJs.agrupar_item acc item
  = inl (TypeError "acc[cat].push is not a function").
Proof.
  intros Hp Hl. unfold IndexJs.agrupar_item. fold (label item).
  induction Hp as [|[k' xs] acc Hk _ IH]; simpl.
  - now rewrite Hl.
  - destruct (String.eqb_spec k' (label item)) as [E|_].
    + simpl in Hk. congruence.
    + now rewrite IH.
Qed.

(** When no label is an inherited name, the reduction files every row
    under its label and keeps the menu order inside each group. *)
Lemma agrupar_files menu :
  forall acc,
    Forall (fun item => inherited (label item) = false) menu ->
    exists g,
      IndexJs.agrupar menu acc = inr g
      /\ (plain acc -> plain g)
      /\ forall k, bucket k g = (bucket k acc ++ labelled k menu)%list.
Proof.
  induction menu as [|item menu IH]; intros acc Hm; simpl.
  - exists acc. split; [reflexivity|]. split; [auto|].
    intros k. now rewrite app_nil_r.
  - inversion Hm as [|? ? Hi Hr]; subst.
    destruct (agrupar_item_files acc item Hi) as (acc' & -> & Hp & Hb).
    destruct (IH acc' Hr) as (g & -> & Hp' & Hg).
    exists g. split; [reflexivity|]. split; [auto|].
    intros k. rewrite Hg, Hb, <- app_assoc. f_equal.
    destruct (label item =? k)%string; reflexivity.
Qed.

(** As soon as one row's label is an inherited name, the reduction
    throws. *)
Lemma agrupar_throws menu :
  forall acc,
    plain acc ->
    Exists (fun item => inherited (label item) = true) menu ->
    IndexJs.agrupar menu acc
    = inl (TypeError "acc[cat].push is not a function").
Proof.
  induction menu as [|item menu IH]; intros acc Hp He; simpl.
  - inversion He.
  - destruct (inherited (label item)) eqn:Hi.
    + now rewrite (agrupar_item_throws acc item Hp Hi).
    + destruct (agrupar_item_files acc item Hi) as (acc' & -> & Hp' & _).
      apply IH; [auto|]. inversion He; subst; [congruence | assumption].
Qed.

(** The two entry points group alike; only the text of the exception
    differs. *)
Lemma groupedMenu_item_agrees acc item :
  match IndexJs.agrupar_item acc item, ServerJs.groupedMenu_item acc item with
  | inr a, inr b => a = b
  | inl _, inl _ => True
  | _, _ => False
  end.
Proof.
  unfold IndexJs.agrupar_item, ServerJs.groupedMenu_item. fold (label item).
  induction acc as [|[k' xs] acc IH]; simpl.
  - now destruct (inherited (label item)).
  - destruct (k' =? label item)%string; [reflexivity|].
    destruct (_ acc), (_ acc); try contradiction; [exact I | now subst].
Qed.

Lemma groupedMenu_agrees menu :
  forall acc,
    match IndexJs.agrupar menu acc, ServerJs.groupedMenu menu acc with
    | inr a, inr b => a = b
    | inl _, inl _ => True
    | _, _ => False
    end.
Proof.
  induction menu as [|item menu IH]; intros acc; simpl; [reflexivity|].
  pose proof (groupedMenu_item_agrees acc item) as Hi.
  destruct (IndexJs.agrupar_item acc item),
    (ServerJs.groupedMenu_item acc item); try contradiction; [exact I|].
  subst. apply IH.
Qed.

End Grouping.

Import Fixtures.

(** The menu of the specification's example, as stored. *)
Definition example_menu : World :=
  with_menu [dish 1 (Some "Bebidas"); dish 2 None; dish 3 (Some "Bebidas")].

Lemma example_menu_grouped :
  fst (IndexJs.get_api_menu demo (without_header []) example_menu)
  = Sent (MenuJson 200
            [ ("Bebidas", [dish 1 (Some "Bebidas"); dish 3 (Some "Bebidas")]);
              ("Outros", [dish 2 None]) ])
  /\ fst (ServerJs.get_api_menu demo (without_header []) example_menu)
     = fst (IndexJs.get_api_menu demo (without_header []) example_menu).
Proof. split; reflexivity. Qed.

(** C9.  A menu row whose category is the name of a member of
    [Object.prototype] breaks the grouping: [acc[cat]] finds the
    inherited member, no array is created, and [push] is not a function.
    Both menu handlers throw instead of answering with the groups. *)
Theorem inherited_category_throws :
  fst (IndexJs.get_api_menu demo (without_header [])
         (with_menu [dish 1 (Some "Bebidas"); dish 2 (Some "constructor")]))
  = Thrown (TypeError "acc[cat].push is not a function")
  /\ fst (ServerJs.get_api_menu demo (without_header [])
            (with_menu [dish 1 (Some "Bebidas"); dish 2 (Some "constructor")]))
     = Thrown (TypeError "acc[category].push is not a function").
Proof. split; reflexivity. Qed.

End Menu.

(* ================================================================== *)
(** * Further properties of the handlers *)

(** ** Credentials the auth service does not accept *)

Module Credentials.
Import Json Js Supabase Gateway.

(** X2.  Words after the second one play no part: the token is the second
    word alone. *)
Lemma token_of_ignores_later_words scheme token rest :
  spaceless scheme = true -> spaceless token = true ->
  token_of (Some (scheme ++ String " " (token ++ String " " rest)))
  = Some token.
Proof.
  intros Hs Ht. unfold token_of.
  destruct (scheme ++ String " " (token ++ String " " rest)) eqn:E.
  - destruct scheme; discriminate.
  - rewrite <- E, (split_word scheme _ Hs), (split_word token rest Ht).
    reflexivity.
Qed.

Lemma token_of_ignores_later_words_witness :
  token_of (Some "Bearer tok-ana and more") = Some "tok-ana".
Proof.
  apply (token_of_ignores_later_words "Bearer" "tok-ana" "and more");
    reflexivity.
Defined.

Section WithService.
Context `{NumberOps}.
Variable svc : Service.

(** The request carries the token [t] and the auth service does not
    give an identity for it: it answers with an error, or with no user. *)
Definition refused (req : Request) (t : string) : Prop :=
  token_of (header "authorization" (headers req)) = Some t
  /\ t <> EmptyString
  /\ (gu_error (getUser svc t) <> None \/ gu_user (getUser svc t) = None).

Lemma index_gate_refuses req w t :
  refused req t ->
  IndexJs.requireAuth svc req w
  = (Stop (ErrorJson 401 "Token inválido."), log (AuthGetUser t) w).
Proof.
  intros (Ht & Hne & Hbad). unfold IndexJs.requireAuth. rewrite Ht.
  destruct t as [|c t]; [congruence|].
  destruct (gu_error (getUser svc (String c t))),
    (gu_user (getUser svc (String c t))); try reflexivity.
  destruct Hbad; congruence.
Qed.

Lemma server_gate_refuses req w t :
  refused req t ->
  ServerJs.requireAuth svc req w
  = (Stop (ErrorJson 401 "Token inválido ou expirado."),
     log (AuthGetUser t) w).
Proof.
  intros (Ht & Hne & Hbad). unfold ServerJs.requireAuth. rewrite Ht.
  destruct t as [|c t]; [congruence|].
  destruct (gu_error (getUser svc (String c t))),
    (gu_user (getUser svc (String c t))); try reflexivity.
  destruct Hbad; congruence.
Qed.

(** X1.  When [auth.getUser] answers the token with an error or without a
    user, every guarded route replies 401 and the world afterwards is the
    world before plus that one [getUser] call: no table was read or
    written. *)
Theorem rejected_token_reaches_no_table req w t :
  refused req t ->
  IndexJs.post_api_pedidos svc req w
    = (Sent (ErrorJson 401 "Token inválido."), log (AuthGetUser t) w)
  /\ IndexJs.post_api_finalizar svc req w
    = (Sent (ErrorJson 401 "Token inválido."), log (AuthGetUser t) w)
  /\ ServerJs.post_api_pedidos svc req w
    = (Sent (ErrorJson 401 "Token inválido ou expirado."),
       log (AuthGetUser t) w)
  /\ ServerJs.get_api_pedidos svc req w
    = (Sent (ErrorJson 401 "Token inválido ou expirado."),
       log (AuthGetUser t) w).
Proof.
  intros Hr.
  unfold IndexJs.post_api_pedidos, IndexJs.post_api_finalizar,
    ServerJs.post_api_pedidos, ServerJs.get_api_pedidos,
    IndexJs.guarded, ServerJs.guarded.
  rewrite (index_gate_refuses req w t Hr), (server_gate_refuses req w t Hr).
  repeat split.
Qed.

End WithService.

Import Fixtures.

Lemma expired_refused (b : list (string * JsVal)) :
  refused demo (with_header "Bearer tok-velho" b) "tok-velho".
Proof. split; [reflexivity|]. split; [discriminate|]. left. discriminate. Defined.

Lemma rejected_token_witness :
  ServerJs.get_api_pedidos demo (with_header "Bearer tok-velho" [])
    (with_pedidos [stored 1 10 "u-ana" "[1]"])
  = (Sent (ErrorJson 401 "Token inválido ou expirado."),
     log (AuthGetUser "tok-velho") (with_pedidos [stored 1 10 "u-ana" "[1]"])).
Proof.
  exact (proj2 (proj2 (proj2
    (rejected_token_reaches_no_table demo (with_header "Bearer tok-velho" [])
       (with_pedidos [stored 1 10 "u-ana" "[1]"]) "tok-velho"
       (expired_refused []))))).
Defined.

End Credentials.

(* ================================================================== *)
(** ** Validation and storage of submitted orders *)

Module Orders.
Import Json Js Supabase Bodies Submission.

Section WithService.
Context `{NumberOps}.
Variable svc : Service.

Lemma index_gate_stop req w r w1 :
  IndexJs.requireAuth svc req w = (Stop r, w1) ->
  exists message, r = ErrorJson 401 message.
Proof.
  unfold IndexJs.requireAuth.
  destruct (token_of (header "authorization" (headers req))) as [[|c t]|];
    try (intros E; injection E as <- _; eauto).
  destruct (gu_error (getUser svc (String c t))),
    (gu_user (getUser svc (String c t)));
    intros E; try discriminate; injection E as <- _; eauto.
Qed.

(** X3.  An authenticated cart that arrives with a parsed body whose
    [items] or [total] is falsy (missing, [null], [false], [0] or the
    empty string), or whose [details] is falsy in [index.js], is answered
    400; the world afterwards holds the [getUser] call of the gate and
    nothing else: no table call was made.  When the request carries no
    body at all ([req.body] is undefined) the handlers send no reply:
    the destructuring throws a TypeError, again after the [getUser] call
    alone. *)
Theorem incomplete_cart_is_refused req w t uid :
  resolved svc req t uid ->
  (parsed req <> None ->
   (truthy (get "items" (body req)) = false
    \/ truthy (get "total" (body req)) = false ->
    ServerJs.post_api_pedidos svc req w
    = (Sent (ErrorJson 400 "O carrinho está vazio ou o total está faltando."),
       log (AuthGetUser t) w))
   /\ (truthy (get "items" (body req)) = false
       \/ truthy (get "total" (body req)) = false
       \/ truthy (get "details" (body req)) = false ->
       IndexJs.post_api_pedidos svc req w
       = (Sent (ErrorJson 400
                  "Dados incompletos (itens, total ou detalhes faltando)."),
          log (AuthGetUser t) w)))
  /\ (parsed req = None ->
      ServerJs.post_api_pedidos svc req w
      = (Thrown (TypeError (undefined_body "items")), log (AuthGetUser t) w)
      /\ IndexJs.post_api_pedidos svc req w
         = (Thrown (TypeError (undefined_body "items")),
            log (AuthGetUser t) w)).
Proof.
  intros Hr.
  unfold ServerJs.post_api_pedidos, ServerJs.guarded,
    IndexJs.post_api_pedidos, IndexJs.guarded.
  rewrite (server_gate_opens svc req w t uid Hr),
    (index_gate_opens svc req w t uid Hr).
  unfold ServerJs.pedidos_handler, IndexJs.pedidos_handler.
  split; intros Hb.
  - destruct (parsed req) as [b|]; [clear Hb | congruence].
    split; intros Hbad.
    + destruct Hbad as [-> | ->]; cbn [negb orb]; rewrite ?orb_true_r;
        reflexivity.
    + destruct Hbad as [-> | [-> | ->]]; cbn [negb orb];
        rewrite ?orb_true_r; reflexivity.
  - rewrite Hb. split; reflexivity.
Qed.

(** X4.  POST /api/finalizar asks for [nome], [telefone], [endereco],
    [pagamento], [itens] and [total]: when the request has a parsed body
    and any of them is falsy the reply is 400 and no table call is made.
    Without a body the handler sends no reply: the destructuring throws
    a TypeError, and no table call is made either. *)
Theorem incomplete_delivery_is_refused req w t uid :
  resolved svc req t uid ->
  (parsed req <> None ->
   truthy (get "nome" (body req)) = false
   \/ truthy (get "telefone" (body req)) = false
   \/ truthy (get "endereco" (body req)) = false
   \/ truthy (get "pagamento" (body req)) = false
   \/ truthy (get "itens" (body req)) = false
   \/ truthy (get "total" (body req)) = false ->
   IndexJs.post_api_finalizar svc req w
   = (Sent (ErrorJson 400 "Dados incompletos."), log (AuthGetUser t) w))
  /\ (parsed req = None ->
      IndexJs.post_api_finalizar svc req w
      = (Thrown (TypeError (undefined_body "nome")), log (AuthGetUser t) w)).
Proof.
  intros Hr.
  unfold IndexJs.post_api_finalizar, IndexJs.guarded.
  rewrite (index_gate_opens svc req w t uid Hr).
  unfold IndexJs.finalizar_handler.
  split; intros Hb.
  - destruct (parsed req) as [b|]; [clear Hb | congruence].
    intros Hbad.
    destruct Hbad as [-> | [-> | [-> | [-> | [-> | ->]]]]];
      cbn [negb orb]; rewrite ?orb_true_r; reflexivity.
  - now rewrite Hb.
Qed.

(** X5.  When the table answers the insert with an error, a valid submission
    is answered 500 and the world afterwards holds the two calls and
    nothing else: no row was added. *)
Theorem failed_insert_stores_nothing req w t uid :
  resolved svc req t uid ->
  (db_error svc (DbInsert "pedidos") = true ->
   truthy (get "items" (body req)) = true ->
   truthy (get "total" (body req)) = true ->
   ServerJs.post_api_pedidos svc req w
   = (Sent (ErrorJson 500 "Falha ao finalizar o pedido."),
      log (DbInsert "pedidos") (log (AuthGetUser t) w))
   /\ (truthy (get "details" (body req)) = true ->
       IndexJs.post_api_pedidos svc req w
       = (Sent (ErrorJson 500 "Erro ao criar pedido."),
          log (DbInsert "pedidos") (log (AuthGetUser t) w))))
  /\ (db_error svc (DbInsert "pedidos_finalizados") = true ->
      truthy (get "nome" (body req)) = true ->
      truthy (get "telefone" (body req)) = true ->
      truthy (get "endereco" (body req)) = true ->
      truthy (get "pagamento" (body req)) = true ->
      truthy (get "itens" (body req)) = true ->
      truthy (get "total" (body req)) = true ->
      IndexJs.post_api_finalizar svc req w
      = (Sent (ErrorJson 500 "Erro ao finalizar pedido."),
         log (DbInsert "pedidos_finalizados") (log (AuthGetUser t) w))).
Proof.
  intros Hr. split.
  - intros Hdb Hi Ht. split; [|intros Hd].
    + unfold ServerJs.post_api_pedidos, ServerJs.guarded.
      rewrite (server_gate_opens svc req w t uid Hr).
      unfold ServerJs.pedidos_handler, insert_pedido.
      with_body Hi. now rewrite Hi, Ht, Hdb.
    + unfold IndexJs.post_api_pedidos, IndexJs.guarded.
      rewrite (index_gate_opens svc req w t uid Hr).
      unfold IndexJs.pedidos_handler, insert_pedido.
      with_body Hi. now rewrite Hi, Ht, Hd, Hdb.
  - intros Hdb Hn Hte He Hp Hi Ht.
    unfold IndexJs.post_api_finalizar, IndexJs.guarded.
    rewrite (index_gate_opens svc req w t uid Hr).
    unfold IndexJs.finalizar_handler, insert_finalizado.
    with_body Hn. now rewrite Hn, Hte, He, Hp, Hi, Ht, Hdb.
Qed.

(** X6.  Whenever POST /api/pedidos answers with a created row, the status is
    201, the request had truthy [items] and [total], and the row is
    [Pendente] with the [total] exactly as the client sent it and
    [items_json] the serialisation of the client's [items]; the second
    entry point leaves [details_json] null, [index.js] requires [details]
    and stores its serialisation. *)
Theorem created_order_is_as_submitted req w st m p w' :
  (ServerJs.post_api_pedidos svc req w = (Sent (PedidoJson st m p), w') ->
   st = 201
   /\ truthy (get "items" (body req)) = true
   /\ truthy (get "total" (body req)) = true
   /\ status (cols p) = "Pendente"
   /\ total (cols p) = get "total" (body req)
   /\ items_json (cols p) = JSON_stringify (get "items" (body req))
   /\ details_json (cols p) = None)
  /\ (IndexJs.post_api_pedidos svc req w = (Sent (PedidoJson st m p), w') ->
      st = 201
      /\ truthy (get "items" (body req)) = true
      /\ truthy (get "total" (body req)) = true
      /\ truthy (get "details" (body req)) = true
      /\ status (cols p) = "Pendente"
      /\ total (cols p) = get "total" (body req)
      /\ items_json (cols p) = JSON_stringify (get "items" (body req))
      /\ details_json (cols p) = JSON_stringify (get "details" (body req))).
Proof.
  split.
  - unfold ServerJs.post_api_pedidos, ServerJs.guarded.
    destruct (ServerJs.requireAuth svc req w) as [[r|uid] w1] eqn:Hg.
    { destruct (History.server_gate_stop svc req w r w1 Hg) as [e ->].
      discriminate. }
    unfold ServerJs.pedidos_handler, insert_pedido.
    destruct (parsed req); [|discriminate].
    destruct (negb (truthy (get "items" (body req)))
              || negb (truthy (get "total" (body req)))) eqn:Hv;
      [discriminate|].
    apply orb_false_elim in Hv as [Hi Ht].
    apply negb_false_iff in Hi, Ht.
    destruct (db_error svc _); [discriminate|].
    intros E. injection E as <- _ <- _. repeat split; assumption.
  - unfold IndexJs.post_api_pedidos, IndexJs.guarded.
    destruct (IndexJs.requireAuth svc req w) as [[r|uid] w1] eqn:Hg.
    { destruct (index_gate_stop req w r w1 Hg) as [e ->]. discriminate. }
    unfold IndexJs.pedidos_handler, insert_pedido.
    destruct (parsed req); [|discriminate].
    destruct (negb (truthy (get "items" (body req)))
              || negb (truthy (get "total" (body req)))
              || negb (truthy (get "details" (body req)))) eqn:Hv;
      [discriminate|].
    apply orb_false_elim in Hv as [Hv Hd].
    apply orb_false_elim in Hv as [Hi Ht].
    apply negb_false_iff in Hi, Ht, Hd.
    destruct (db_error svc _); [discriminate|].
    intros E. injection E as <- _ <- _. repeat split; assumption.
Qed.

End WithService.

Section Delivery.
Context `{ops : NumberOps} `{!NumberLaws}.
Variable svc : Service.


(** X8.  Both text columns of an order created by [index.js] parse back to
    what the client sent: [items_json] to the [items] of the request and
    [details_json] to its [details]. *)
Theorem order_columns_parse_back req w t uid its det :
  resolved svc req t uid ->
  get "items" (body req) = Some its ->
  get "details" (body req) = Some det ->
  truthy (Some its) = true ->
  truthy (Some det) = true ->
  truthy (get "total" (body req)) = true ->
  well_formed its = true ->
  well_formed det = true ->
  db_error svc (DbInsert "pedidos") = false ->
  exists p w',
    IndexJs.post_api_pedidos svc req w
    = (Sent (PedidoJson 201 "Pedido criado!" p), w')
    /\ JSON_parse (items_json (cols p)) = Some its
    /\ JSON_parse (details_json (cols p)) = Some det.
Proof.
  intros Hr Hi Hd Hit Hdt Ht Hwi Hwd Hdb.
  unfold IndexJs.post_api_pedidos, IndexJs.guarded.
  rewrite (index_gate_opens svc req w t uid Hr).
  unfold IndexJs.pedidos_handler, insert_pedido.
  with_body Ht. rewrite Hi, Hd, Hit, Hdt, Ht, Hdb. cbn [negb orb].
  eexists _, _. split; [reflexivity|].
  cbn [cols items_json details_json JSON_stringify option_map JSON_parse].
  split; now apply JsonFacts.parse_stringify.
Qed.

End Delivery.

Import Fixtures.

(** A cart with a total of zero. *)
Definition free_cart : list (string * JsVal) :=
  [("items", cart); ("total", JNum 0%Z)].

Import ZNumberFacts.

Lemma ana_is_resolved (b : list (string * JsVal)) :
  resolved demo (with_header "Bearer tok-ana" b) "tok-ana" "u-ana".
Proof. repeat split. discriminate. Defined.

Lemma ana_bodyless_resolved :
  resolved demo (bodyless "Bearer tok-ana") "tok-ana" "u-ana".
Proof. repeat split. discriminate. Defined.

Lemma incomplete_cart_witness :
  ServerJs.post_api_pedidos demo (with_header "Bearer tok-ana" free_cart)
    empty_store
  = (Sent (ErrorJson 400 "O carrinho está vazio ou o total está faltando."),
     log (AuthGetUser "tok-ana") empty_store)
  /\ IndexJs.post_api_pedidos demo (bodyless "Bearer tok-ana") empty_store
     = (Thrown (TypeError (undefined_body "items")),
        log (AuthGetUser "tok-ana") empty_store).
Proof.
  split.
  - apply (proj1 (incomplete_cart_is_refused demo
                    (with_header "Bearer tok-ana" free_cart)
                    empty_store "tok-ana" "u-ana" (ana_is_resolved _)));
      [discriminate | right; reflexivity].
  - apply (proj2 (incomplete_cart_is_refused demo
                    (bodyless "Bearer tok-ana")
                    empty_store "tok-ana" "u-ana" ana_bodyless_resolved)).
    reflexivity.
Defined.

Definition delivery_body : list (string * JsVal) :=
  [ ("nome", JStr "Ana"); ("telefone", JStr "11 99999-0000");
    ("endereco", JStr "Rua das Flores, 10"); ("pagamento", JStr "pix");
    ("itens", cart); ("total", ten) ].

(** The same order with the address left empty. *)
Definition no_address : list (string * JsVal) :=
  [ ("nome", JStr "Ana"); ("telefone", JStr "11 99999-0000");
    ("endereco", JStr EmptyString); ("pagamento", JStr "pix");
    ("itens", cart); ("total", ten) ].

Lemma incomplete_delivery_witness :
  IndexJs.post_api_finalizar demo (with_header "Bearer tok-ana" no_address)
    empty_store
  = (Sent (ErrorJson 400 "Dados incompletos."),
     log (AuthGetUser "tok-ana") empty_store).
Proof.
  apply (proj1 (incomplete_delivery_is_refused demo
                  (with_header "Bearer tok-ana" no_address)
                  empty_store "tok-ana" "u-ana" (ana_is_resolved _))).
  - discriminate.
  - right. right. left. reflexivity.
Defined.

(** Every insert fails. *)
Definition offline : Service :=
  {| getUser := getUser demo; signUp := signUp demo;
     signInWithPassword := signInWithPassword demo;
     db_error := fun c => match c with DbInsert _ => true | _ => false end |}.

Lemma ana_is_resolved_offline (b : list (string * JsVal)) :
  resolved offline (with_header "Bearer tok-ana" b) "tok-ana" "u-ana".
Proof. repeat split. discriminate. Defined.

Lemma failed_insert_witness :
  ServerJs.post_api_pedidos offline (with_header "Bearer tok-ana" order_body)
    empty_store
  = (Sent (ErrorJson 500 "Falha ao finalizar o pedido."),
     log (DbInsert "pedidos") (log (AuthGetUser "tok-ana") empty_store))
  /\ IndexJs.post_api_finalizar offline
       (with_header "Bearer tok-ana" delivery_body) empty_store
     = (Sent (ErrorJson 500 "Erro ao finalizar pedido."),
        log (DbInsert "pedidos_finalizados")
          (log (AuthGetUser "tok-ana") empty_store)).
Proof.
  split.
  - exact (proj1 (proj1 (failed_insert_stores_nothing offline
                           (with_header "Bearer tok-ana" order_body)
                           empty_store "tok-ana" "u-ana"
                           (ana_is_resolved_offline _))
                    eq_refl eq_refl eq_refl)).
  - exact (proj2 (failed_insert_stores_nothing offline
                    (with_header "Bearer tok-ana" delivery_body)
                    empty_store "tok-ana" "u-ana"
                    (ana_is_resolved_offline _))
             eq_refl eq_refl eq_refl eq_refl eq_refl eq_refl eq_refl).
Defined.

Lemma created_order_witness :
  exists p,
    fst (ServerJs.post_api_pedidos demo
           (with_header "Bearer tok-ana" order_body) empty_store)
    = Sent (PedidoJson 201 "Pedido finalizado com sucesso!" p)
    /\ status (cols p) = "Pendente"
    /\ total (cols p) = Some ten
    /\ items_json (cols p) = Some (stringify cart)
    /\ details_json (cols p) = None.
Proof.
  eexists. split; [reflexivity|].
  destruct (proj1 (created_order_is_as_submitted demo
                     (with_header "Bearer tok-ana" order_body) empty_store
                     201 "Pedido finalizado com sucesso!" _ _) eq_refl)
    as (_ & _ & _ & Hs & Ht & Hi & Hd).
  repeat split; assumption.
Defined.

Lemma order_columns_witness :
  exists p w',
    IndexJs.post_api_pedidos demo (with_header "Bearer tok-ana" order_body)
      empty_store
    = (Sent (PedidoJson 201 "Pedido criado!" p), w')
    /\ JSON_parse (items_json (cols p)) = Some cart
    /\ JSON_parse (details_json (cols p)) = Some delivery.
Proof.
  apply (order_columns_parse_back demo
           (with_header "Bearer tok-ana" order_body) empty_store
           "tok-ana" "u-ana" cart delivery (ana_is_resolved _));
    reflexivity.
Defined.


End Orders.

(* ================================================================== *)
(** ** Accounts: registration and login *)

Module Accounts.
Import Json Js Supabase Bodies.

Section WithService.
Context `{NumberOps}.
Variable svc : Service.

(** The profile row [index.js] inserts: no phone column. *)
Definition index_profile (uid : string) (req : Request) : Perfil :=
  {| pf_id := uid; pf_nome := get "nome" (body req);
     pf_email := get "email" (body req); pf_telefone := None |}.

(** The profile row of the second entry point: a falsy [telefone] is
    stored as null. *)
Definition server_profile (uid : string) (req : Request) : Perfil :=
  {| pf_id := uid; pf_nome := get "nome" (body req);
     pf_email := get "email" (body req);
     pf_telefone := if truthy (get "telefone" (body req))
                    then get "telefone" (body req) else None |}.

Definition sign_up_call (req : Request) : Call :=
  AuthSignUp (get "email" (body req)) (get "password" (body req)).

Definition sign_in_call (req : Request) : Call :=
  AuthSignIn (get "email" (body req)) (get "password" (body req)).

(** The three fields both registration handlers require. *)
Definition complete (req : Request) : Prop :=
  truthy (get "email" (body req)) = true
  /\ truthy (get "password" (body req)) = true
  /\ truthy (get "nome" (body req)) = true.

(** [auth.signUp] created the identity [uid]. *)
Definition signed_up (req : Request) (uid : string) : Prop :=
  su_error (signUp svc (get "email" (body req)) (get "password" (body req)))
  = None
  /\ su_user (signUp svc (get "email" (body req))
                (get "password" (body req)))
     = Some uid.

Ltac open_register Hc Hs :=
  destruct Hc as (He & Hp & Hn); destruct Hs as (Hse & Hsu);
  unfold IndexJs.post_api_auth_register, ServerJs.post_api_auth_register,
    insert_perfil;
  with_body He;
  rewrite ?He, ?Hp, ?Hn, ?Hse, ?Hsu; cbn [negb orb].

(** X9.  A registration that arrives with a parsed body but without
    [email], [password] or [nome] (missing or falsy) is answered 400 by
    both entry points and the world is left as it was: no call to the
    auth service, no table call.  A registration without a body gets no
    reply: the destructuring throws a TypeError, and the world is left
    as it was too. *)
Theorem incomplete_registration_calls_nothing req w :
  (parsed req <> None ->
   truthy (get "email" (body req)) = false
   \/ truthy (get "password" (body req)) = false
   \/ truthy (get "nome" (body req)) = false ->
   IndexJs.post_api_auth_register svc req w
   = (Sent (ErrorJson 400 "Campos obrigatórios faltando."), w)
   /\ ServerJs.post_api_auth_register svc req w
      = (Sent (ErrorJson 400 "Campos obrigatórios faltando."), w))
  /\ (parsed req = None ->
      IndexJs.post_api_auth_register svc req w
      = (Thrown (TypeError (undefined_body "email")), w)
      /\ ServerJs.post_api_auth_register svc req w
         = (Thrown (TypeError (undefined_body "email")), w)).
Proof.
  unfold IndexJs.post_api_auth_register, ServerJs.post_api_auth_register.
  split; intros Hb.
  - destruct (parsed req) as [b|]; [clear Hb | congruence].
    intros Hbad.
    destruct Hbad as [-> | [-> | ->]]; cbn [negb orb]; rewrite ?orb_true_r;
      split; reflexivity.
  - rewrite Hb. split; reflexivity.
Qed.

(** X10.  When the identity was created but the profile insert fails, both
    entry points answer 500 with a message of their own; the world holds
    the [signUp] call and the failed insert only: no profile row, no
    sign-in, no token, and the identity is not removed. *)
Theorem profile_failure_issues_no_session req w uid :
  complete req -> signed_up req uid ->
  db_error svc (DbInsert "perfis") = true ->
  IndexJs.post_api_auth_register svc req w
  = (Sent (ErrorJson 500 "Usuário criado, mas falha ao salvar perfil."),
     log (DbInsert "perfis") (log (sign_up_call req) w))
  /\ ServerJs.post_api_auth_register svc req w
     = (Sent (ErrorJson 500
                "Usuário criado, mas falha ao salvar dados adicionais."),
        log (DbInsert "perfis") (log (sign_up_call req) w)).
Proof.
  intros Hc Hs Hdb. open_register Hc Hs. rewrite Hdb. split; reflexivity.
Qed.

(** X11.  In [index.js], when the sign-in that follows a saved profile fails,
    the reply is 500 with a third message and the profile row stays:
    nothing is rolled back. *)
Theorem session_failure_keeps_profile req w uid m :
  complete req -> signed_up req uid ->
  db_error svc (DbInsert "perfis") = false ->
  si_error (signInWithPassword svc (get "email" (body req))
              (get "password" (body req))) = Some m ->
  exists w',
    IndexJs.post_api_auth_register svc req w
    = (Sent (ErrorJson 500 "Usuário criado, mas falha ao gerar token."), w')
    /\ perfis w' = (perfis w ++ [index_profile uid req])%list
    /\ trace w'
       = (trace w
          ++ [sign_up_call req; DbInsert "perfis"; sign_in_call req])%list.
Proof.
  intros Hc Hs Hdb Hsi. open_register Hc Hs. rewrite Hdb, Hsi. cbn [negb].
  eexists. split; [reflexivity|]. split; [reflexivity|].
  cbn [trace log]. now rewrite <- !app_assoc.
Qed.

(** X12.  A registration that goes through: the profile row carries the id
    [signUp] returned and the name and e-mail of the request, and the
    reply is 201.  [index.js] signs in afterwards and sends the token of
    that session; the second entry point sends the token of the session
    [signUp] returned and stores a truthy [telefone]. *)
Theorem registration_saves_profile_then_replies req w uid :
  complete req -> signed_up req uid ->
  db_error svc (DbInsert "perfis") = false ->
  (forall tok,
      si_error (signInWithPassword svc (get "email" (body req))
                  (get "password" (body req))) = None ->
      si_session (signInWithPassword svc (get "email" (body req))
                    (get "password" (body req))) = Some tok ->
      exists w',
        IndexJs.post_api_auth_register svc req w
        = (Sent (TokenJson 201 "Cadastro realizado com sucesso!" tok), w')
        /\ perfis w' = (perfis w ++ [index_profile uid req])%list
        /\ trace w'
           = (trace w
              ++ [sign_up_call req; DbInsert "perfis"; sign_in_call req])%list)
  /\ (forall tok,
      su_session (signUp svc (get "email" (body req))
                    (get "password" (body req))) = Some tok ->
      exists w',
        ServerJs.post_api_auth_register svc req w
        = (Sent (TokenJson 201 "Cadastro realizado com sucesso!" tok), w')
        /\ perfis w' = (perfis w ++ [server_profile uid req])%list
        /\ trace w'
           = (trace w ++ [sign_up_call req; DbInsert "perfis"])%list).
Proof.
  intros Hc Hs Hdb. open_register Hc Hs. rewrite Hdb. cbn [negb].
  split; intros tok.
  - intros -> ->. eexists. split; [reflexivity|]. split; [reflexivity|].
    cbn [trace log]. now rewrite <- !app_assoc.
  - intros ->. eexists. split; [reflexivity|]. split; [reflexivity|].
    cbn [trace log]. now rewrite <- !app_assoc.
Qed.

(** Closes a branch in which both handlers reply without a token. *)
Ltac no_token := split; intros ? ? ? ? E; discriminate E.

Ltac replies := split; eexists; reflexivity.

(** X13.  The registration handlers throw only at the destructuring of
    a missing body: with a parsed body every path ends in a reply, and
    without one both throw a TypeError and leave the world as it was.  A
    reply that carries a token has status 201 and comes with exactly one
    new profile row, whose id is the one [signUp] returned. *)
Theorem registration_always_replies req w :
  (parsed req <> None ->
   (exists r, fst (IndexJs.post_api_auth_register svc req w) = Sent r)
   /\ (exists r, fst (ServerJs.post_api_auth_register svc req w) = Sent r))
  /\ (parsed req = None ->
      IndexJs.post_api_auth_register svc req w
      = (Thrown (TypeError (undefined_body "email")), w)
      /\ ServerJs.post_api_auth_register svc req w
         = (Thrown (TypeError (undefined_body "email")), w))
  /\ (forall st m tok w',
        IndexJs.post_api_auth_register svc req w
        = (Sent (TokenJson st m tok), w') ->
        st = 201
        /\ exists uid, signed_up req uid
                       /\ perfis w' = (perfis w ++ [index_profile uid req])%list)
  /\ (forall st m tok w',
        ServerJs.post_api_auth_register svc req w
        = (Sent (TokenJson st m tok), w') ->
        st = 201
        /\ exists uid, signed_up req uid
                       /\ perfis w' = (perfis w ++ [server_profile uid req])%list).
Proof.
  unfold IndexJs.post_api_auth_register, ServerJs.post_api_auth_register,
    insert_perfil, signed_up, IndexJs.register_catch, ServerJs.register_catch.
  destruct (parsed req) as [b|].
  2:{ split; [congruence|]. split; [split; reflexivity|].
      split; intros ? ? ? ? E; discriminate E. }
  split; [intros _ | split; [discriminate|]];
    destruct (negb (truthy (get "email" (body req)))
              || negb (truthy (get "password" (body req)))
              || negb (truthy (get "nome" (body req))));
    try no_token; try replies;
    (destruct (su_error (signUp svc _ _)) as [message|];
     [destruct (includes _ message); [|destruct (includes _ message)];
      first [no_token | replies] |]);
    (destruct (su_user (signUp svc _ _)) as [uid|];
     [|first [no_token | replies]]);
    (destruct (db_error svc _); cbn [negb]; [first [no_token | replies]|]);
    destruct (su_session (signUp svc (get "email" (body req))
                            (get "password" (body req)))) as [tok'|],
      (si_error (signInWithPassword svc (get "email" (body req))
                   (get "password" (body req)))) as [m'|],
      (si_session (signInWithPassword svc (get "email" (body req))
                     (get "password" (body req)))) as [tok''|];
    try replies;
    split; intros st m tok w' E; try discriminate E;
    injection E as <- _ _ <-; (split; [reflexivity|]);
    exists uid; repeat split.
Qed.

(** X14.  A login that arrives with a parsed body but without [email] or
    [password] is answered 400 by both entry points without any call.  A
    login without a body gets no reply: the destructuring throws a
    TypeError, without any call either. *)
Theorem incomplete_login_calls_nothing req w :
  (parsed req <> None ->
   truthy (get "email" (body req)) = false
   \/ truthy (get "password" (body req)) = false ->
   IndexJs.post_api_auth_login svc req w
   = (Sent (ErrorJson 400 "Email e senha são obrigatórios."), w)
   /\ ServerJs.post_api_auth_login svc req w
      = (Sent (ErrorJson 400 "Email e senha são obrigatórios."), w))
  /\ (parsed req = None ->
      IndexJs.post_api_auth_login svc req w
      = (Thrown (TypeError (undefined_body "email")), w)
      /\ ServerJs.post_api_auth_login svc req w
         = (Thrown (TypeError (undefined_body "email")), w)).
Proof.
  unfold IndexJs.post_api_auth_login, ServerJs.post_api_auth_login.
  split; intros Hb.
  - destruct (parsed req) as [b|]; [clear Hb | congruence].
    intros Hbad.
    destruct Hbad as [-> | ->]; cbn [negb orb]; rewrite ?orb_true_r;
      split; reflexivity.
  - rewrite Hb. split; reflexivity.
Qed.

(** X15.  When the auth service refuses the credentials with message [m], both
    entry points answer 401 after that single call.  [index.js] sends a
    fixed text whatever [m] is; the second entry point appends [m] to its
    text. *)
Theorem refused_login_is_unauthorized req w m :
  truthy (get "email" (body req)) = true ->
  truthy (get "password" (body req)) = true ->
  si_error (signInWithPassword svc (get "email" (body req))
              (get "password" (body req))) = Some m ->
  IndexJs.post_api_auth_login svc req w
  = (Sent (ErrorJson 401 "Credenciais inválidas."), log (sign_in_call req) w)
  /\ ServerJs.post_api_auth_login svc req w
     = (Sent (ErrorJson 401 ("Credenciais inválidas: " ++ m)),
        log (sign_in_call req) w).
Proof.
  intros He Hp Hm.
  unfold IndexJs.post_api_auth_login, ServerJs.post_api_auth_login.
  with_body He. rewrite He, Hp, Hm. split; reflexivity.
Qed.

(** X16.  A token sent by a login handler has status 200 and is the access
    token of the session the auth service returned, without error, for
    the credentials of the request; the handler made that one call and
    touched no table. *)
Theorem login_token_is_the_session_token req w st m tok w' :
  IndexJs.post_api_auth_login svc req w = (Sent (TokenJson st m tok), w')
  \/ ServerJs.post_api_auth_login svc req w = (Sent (TokenJson st m tok), w') ->
  st = 200
  /\ si_error (signInWithPassword svc (get "email" (body req))
                 (get "password" (body req))) = None
  /\ si_session (signInWithPassword svc (get "email" (body req))
                   (get "password" (body req))) = Some tok
  /\ w' = log (sign_in_call req) w.
Proof.
  unfold IndexJs.post_api_auth_login, ServerJs.post_api_auth_login.
  destruct (parsed req).
  2:{ intros [E | E]; discriminate E. }
  destruct (negb (truthy (get "email" (body req)))
            || negb (truthy (get "password" (body req)))).
  { intros [E | E]; discriminate E. }
  destruct (si_error (signInWithPassword svc _ _)) as [m'|].
  { intros [E | E]; discriminate E. }
  destruct (si_session (signInWithPassword svc _ _)) as [tok'|].
  - intros [E | E]; injection E as <- _ <- <-; repeat split.
  - intros [E | E]; discriminate E.
Qed.

End WithService.

Import Fixtures.

Definition bia_sign_up : Request := Registration.sign_up "bia@example.com".

Definition bia_login : Request :=
  without_header [("email", JStr "bia@example.com");
                  ("password", JStr "segredo1")].

(** The auth service refuses every sign-in. *)
Definition locked : Service :=
  {| getUser := getUser demo; signUp := signUp demo;
     signInWithPassword := fun _ _ =>
       {| si_error := Some "Invalid login credentials"; si_session := None |};
     db_error := db_error demo |}.

Lemma incomplete_registration_witness :
  (IndexJs.post_api_auth_register demo
     (without_header [("email", JStr "bia@example.com")]) empty_store
   = (Sent (ErrorJson 400 "Campos obrigatórios faltando."), empty_store)
   /\ ServerJs.post_api_auth_register demo
        (without_header [("email", JStr "bia@example.com")]) empty_store
      = (Sent (ErrorJson 400 "Campos obrigatórios faltando."), empty_store))
  /\ (IndexJs.post_api_auth_register demo bare empty_store
      = (Thrown (TypeError (undefined_body "email")), empty_store)
      /\ ServerJs.post_api_auth_register demo bare empty_store
         = (Thrown (TypeError (undefined_body "email")), empty_store)).
Proof.
  split.
  - apply (proj1 (incomplete_registration_calls_nothing demo
                    (without_header [("email", JStr "bia@example.com")])
                    empty_store));
      [discriminate | right; left; reflexivity].
  - apply (proj2 (incomplete_registration_calls_nothing demo bare
                    empty_store)).
    reflexivity.
Defined.

Lemma bia_complete : complete bia_sign_up.
Proof. repeat split. Defined.

Lemma profile_failure_witness :
  IndexJs.post_api_auth_register Orders.offline bia_sign_up empty_store
  = (Sent (ErrorJson 500 "Usuário criado, mas falha ao salvar perfil."),
     log (DbInsert "perfis") (log (sign_up_call bia_sign_up) empty_store))
  /\ ServerJs.post_api_auth_register Orders.offline bia_sign_up empty_store
     = (Sent (ErrorJson 500
                "Usuário criado, mas falha ao salvar dados adicionais."),
        log (DbInsert "perfis") (log (sign_up_call bia_sign_up) empty_store)).
Proof.
  apply (profile_failure_issues_no_session Orders.offline bia_sign_up
           empty_store "u-new" bia_complete);
    [split; reflexivity | reflexivity].
Defined.

Lemma session_failure_witness :
  exists w',
    IndexJs.post_api_auth_register locked bia_sign_up empty_store
    = (Sent (ErrorJson 500 "Usuário criado, mas falha ao gerar token."), w')
    /\ perfis w' = [index_profile "u-new" bia_sign_up]
    /\ trace w'
       = [sign_up_call bia_sign_up; DbInsert "perfis";
          sign_in_call bia_sign_up].
Proof.
  apply (session_failure_keeps_profile locked bia_sign_up empty_store "u-new"
           "Invalid login credentials" bia_complete);
    [split; reflexivity | reflexivity | reflexivity].
Defined.

Lemma registration_witness :
  (exists w',
      IndexJs.post_api_auth_register demo bia_sign_up empty_store
      = (Sent (TokenJson 201 "Cadastro realizado com sucesso!" "tok-new"), w')
      /\ perfis w' = [index_profile "u-new" bia_sign_up]
      /\ trace w'
         = [sign_up_call bia_sign_up; DbInsert "perfis";
            sign_in_call bia_sign_up])
  /\ (exists w',
      ServerJs.post_api_auth_register demo bia_sign_up empty_store
      = (Sent (TokenJson 201 "Cadastro realizado com sucesso!" "tok-new"), w')
      /\ perfis w' = [server_profile "u-new" bia_sign_up]
      /\ trace w' = [sign_up_call bia_sign_up; DbInsert "perfis"]).
Proof.
  destruct (registration_saves_profile_then_replies demo bia_sign_up
              empty_store "u-new" bia_complete)
    as [Hindex Hserver]; [split; reflexivity | reflexivity |].
  split.
  - exact (Hindex "tok-new" eq_refl eq_refl).
  - exact (Hserver "tok-new" eq_refl).
Defined.

Lemma registration_replies_witness :
  ((exists r, fst (IndexJs.post_api_auth_register demo bia_sign_up
                     empty_store) = Sent r)
   /\ (exists r, fst (ServerJs.post_api_auth_register demo bia_sign_up
                        empty_store) = Sent r))
  /\ (IndexJs.post_api_auth_register demo bare empty_store
      = (Thrown (TypeError (undefined_body "email")), empty_store)
      /\ ServerJs.post_api_auth_register demo bare empty_store
         = (Thrown (TypeError (undefined_body "email")), empty_store)).
Proof.
  split.
  - apply (proj1 (registration_always_replies demo bia_sign_up empty_store)).
    discriminate.
  - apply (proj1 (proj2 (registration_always_replies demo bare empty_store))).
    reflexivity.
Defined.

Lemma incomplete_login_witness :
  (IndexJs.post_api_auth_login demo
     (without_header [("email", JStr "bia@example.com")]) empty_store
   = (Sent (ErrorJson 400 "Email e senha são obrigatórios."), empty_store)
   /\ ServerJs.post_api_auth_login demo
        (without_header [("email", JStr "bia@example.com")]) empty_store
      = (Sent (ErrorJson 400 "Email e senha são obrigatórios."), empty_store))
  /\ (IndexJs.post_api_auth_login demo bare empty_store
      = (Thrown (TypeError (undefined_body "email")), empty_store)
      /\ ServerJs.post_api_auth_login demo bare empty_store
         = (Thrown (TypeError (undefined_body "email")), empty_store)).
Proof.
  split.
  - apply (proj1 (incomplete_login_calls_nothing demo
                    (without_header [("email", JStr "bia@example.com")])
                    empty_store));
      [discriminate | right; reflexivity].
  - apply (proj2 (incomplete_login_calls_nothing demo bare empty_store)).
    reflexivity.
Defined.

Lemma refused_login_witness :
  IndexJs.post_api_auth_login locked bia_login empty_store
  = (Sent (ErrorJson 401 "Credenciais inválidas."),
     log (sign_in_call bia_login) empty_store)
  /\ ServerJs.post_api_auth_login locked bia_login empty_store
     = (Sent (ErrorJson 401
                "Credenciais inválidas: Invalid login credentials"),
        log (sign_in_call bia_login) empty_store).
Proof.
  apply (refused_login_is_unauthorized locked bia_login empty_store
           "Invalid login credentials");
    reflexivity.
Defined.

Lemma login_token_witness :
  si_session (signInWithPassword demo (get "email" (body bia_login))
                (get "password" (body bia_login)))
  = Some "tok-new"
  /\ snd (IndexJs.post_api_auth_login demo bia_login empty_store)
     = log (sign_in_call bia_login) empty_store.
Proof.
  destruct (login_token_is_the_session_token demo bia_login empty_store
              200 "Login realizado com sucesso!" "tok-new"
              (snd (IndexJs.post_api_auth_login demo bia_login empty_store))
              (or_introl eq_refl))
    as (_ & _ & Hs & Hw).
  split; assumption.
Defined.

End Accounts.

(* ================================================================== *)
(** ** The menu route *)

Module MenuGroups.
Import Json Js Supabase Menu.

Section WithService.
Context `{NumberOps}.
Variable svc : Service.

(** The rows as the query returns them. *)
Definition fetched (w : World) : list MenuItem :=
  order_by by_category_then_id (menu w).

Definition filled (g : list (string * list MenuItem)) : Prop :=
  Forall (fun kv => snd kv <> []) g.

Lemma NoDup_snoc (A : Type) (l : list A) (x : A) :
  NoDup l -> ~ In x l -> NoDup (l ++ [x]).
Proof.
  intros Hl Hx. apply (Permutation_NoDup (Permutation_cons_append l x)).
  now constructor.
Qed.

(** One step of the reduction: the item joins an existing group or
    opens a new one at the end; nothing else moves. *)
Lemma agrupar_item_shape item :
  forall acc acc',
    IndexJs.agrupar_item acc item = inr acc' ->
    ((map fst acc' = map fst acc /\ In (label item) (map fst acc))
     \/ (map fst acc' = (map fst acc ++ [label item])%list
         /\ ~ In (label item) (map fst acc)))
    /\ (filled acc -> filled acc')
    /\ Permutation (concat (map snd acc')) (item :: concat (map snd acc)).
Proof.
  unfold IndexJs.agrupar_item. fold (label item).
  induction acc as [|[k xs] acc IH]; intros acc'.
  - destruct (inherited (label item)); [discriminate|].
    intros E. injection E as <-. split; [right; split; [reflexivity|tauto]|].
    split; [|reflexivity].
    intros _. repeat constructor. discriminate.
  - cbn iota beta. destruct (String.eqb_spec k (label item)) as [Ek|Hne].
    + intros E. injection E as <-. split; [left; split; [reflexivity|]|].
      { left. exact Ek. }
      split.
      * intros Hf. inversion Hf; subst. constructor; [|assumption].
        simpl. destruct xs; discriminate.
      * simpl. rewrite <- app_assoc. simpl.
        apply Permutation_sym, Permutation_middle.
    + match goal with
      | |- match ?push acc with _ => _ end = _ -> _ =>
          destruct (push acc) as [e|r'] eqn:Hpush
      end; [discriminate|].
      intros E. injection E as <-.
      destruct (IH r' eq_refl) as (Hkeys & Hfill & Hperm).
      split; [|split].
      * destruct Hkeys as [[Hk Hin] | [Hk Hnin]]; simpl.
        -- left. split; [now rewrite Hk | now right].
        -- right. split; [now rewrite Hk|].
           intros [E | Hin]; [now apply Hne | now apply Hnin].
      * intros Hf. inversion Hf; subst. constructor; [assumption|].
        now apply Hfill.
      * simpl. apply Permutation_trans with (xs ++ item :: concat (map snd acc))%list.
        -- now apply Permutation_app_head.
        -- apply Permutation_sym, Permutation_middle.
Qed.

Lemma agrupar_shape menu :
  forall acc g,
    IndexJs.agrupar menu acc = inr g ->
    (NoDup (map fst acc) -> NoDup (map fst g))
    /\ (filled acc -> filled g)
    /\ Permutation (concat (map snd g)) (concat (map snd acc) ++ menu).
Proof.
  induction menu as [|item menu IH]; intros acc g; simpl.
  - intros E. injection E as <-. repeat split; auto.
    now rewrite app_nil_r.
  - destruct (IndexJs.agrupar_item acc item) as [e|acc'] eqn:Hi;
      [discriminate|].
    intros Hg.
    destruct (agrupar_item_shape item acc acc' Hi) as (Hkeys & Hfill & Hperm).
    destruct (IH acc' g Hg) as (Hnd & Hfill' & Hperm').
    split; [|split].
    + intros Hacc. apply Hnd.
      destruct Hkeys as [[-> _] | [-> Hnin]]; [assumption|].
      now apply NoDup_snoc.
    + auto.
    + apply (Permutation_trans Hperm').
      apply Permutation_trans
        with ((item :: concat (map snd acc)) ++ menu)%list.
      * now apply Permutation_app_tail.
      * simpl. apply Permutation_middle.
Qed.

(** With distinct keys, a listed group is what [bucket] finds. *)
Lemma bucket_of_member g :
  NoDup (map fst g) ->
  forall k xs, In (k, xs) g -> bucket k g = xs.
Proof.
  induction g as [|[k' xs'] g IH]; simpl; intros Hnd k xs Hin;
    [contradiction|].
  inversion Hnd as [|? ? Hk' Hnd']; subst.
  destruct Hin as [E | Hin].
  - injection E as -> ->. now rewrite String.eqb_refl.
  - destruct (String.eqb_spec k' k) as [->|_]; [|now apply IH].
    exfalso. apply Hk'. apply in_map_iff. now exists (k, xs).
Qed.

Lemma member_of_bucket g k :
  bucket k g <> [] -> In (k, bucket k g) g.
Proof.
  induction g as [|[k' xs'] g IH]; simpl; intros Hb; [congruence|].
  destruct (String.eqb_spec k' k) as [->|_]; [now left | right; auto].
Qed.

Lemma fetched_perm w : Permutation (fetched w) (menu w).
Proof. apply OrderBy.order_by_perm. Qed.

(** Without inherited labels the reduction succeeds, alike in both
    entry points. *)
Lemma plain_menu_replies req w :
  db_error svc (DbSelect "menu") = false ->
  Forall (fun item => inherited (label item) = false) (menu w) ->
  exists g,
    IndexJs.agrupar (fetched w) [] = inr g
    /\ (forall k, bucket k g = labelled k (fetched w))
    /\ fst (IndexJs.get_api_menu svc req w) = Sent (MenuJson 200 g)
    /\ fst (ServerJs.get_api_menu svc req w) = Sent (MenuJson 200 g).
Proof.
  intros Hdb Hplain.
  assert (Forall (fun item => inherited (label item) = false) (fetched w))
    as Hplain'.
  { rewrite Forall_forall in *. intros item Hin. apply Hplain.
    exact (Permutation_in _ (fetched_perm w) Hin). }
  destruct (agrupar_files (fetched w) [] Hplain') as (g & Hg & _ & Hb).
  pose proof (groupedMenu_agrees (fetched w) []) as Hsame.
  rewrite Hg in Hsame.
  destruct (ServerJs.groupedMenu (fetched w) []) as [e|g'] eqn:Hg';
    [contradiction|]. subst g'.
  exists g. split; [exact Hg|]. split; [exact Hb|].
  unfold IndexJs.get_api_menu, ServerJs.get_api_menu, select_menu.
  rewrite Hdb. change (order_by by_category_then_id _) with (fetched w).
  rewrite Hg, Hg'. split; reflexivity.
Qed.

(** X17.  When the table answers and no row's label is a name inherited from
    [Object.prototype], both menu handlers reply 200 with the same
    groups: their keys are distinct, no group is empty, the group under
    [k] is exactly the fetched rows labelled [k] in fetched order (rows
    without a category or with an empty one are labelled [Outros]), every
    row of the table is in the group of its label, and together the
    groups hold the rows of the table, each once. *)
Theorem menu_groups_partition_the_menu req w :
  db_error svc (DbSelect "menu") = false ->
  Forall (fun item => inherited (label item) = false) (menu w) ->
  exists g,
    fst (IndexJs.get_api_menu svc req w) = Sent (MenuJson 200 g)
    /\ fst (ServerJs.get_api_menu svc req w) = Sent (MenuJson 200 g)
    /\ NoDup (map fst g)
    /\ (forall k xs, In (k, xs) g ->
          xs <> [] /\ xs = labelled k (fetched w))
    /\ (forall item, In item (menu w) ->
          In item (bucket (label item) g)
          /\ In (label item, bucket (label item) g) g)
    /\ Permutation (concat (map snd g)) (menu w).
Proof.
  intros Hdb Hplain.
  pose proof (fetched_perm w) as Hfetch.
  destruct (plain_menu_replies req w Hdb Hplain) as (g & Hg & Hb & Hi & Hs).
  destruct (agrupar_shape (fetched w) [] g Hg) as (Hnd & Hfill & Hperm).
  specialize (Hnd (NoDup_nil _)). specialize (Hfill (Forall_nil _)).
  exists g. rewrite Hi, Hs.
  split; [reflexivity|]. split; [reflexivity|]. split; [exact Hnd|].
  split; [|split].
  - intros k xs Hin. split.
    + unfold filled in Hfill. rewrite Forall_forall in Hfill.
      exact (Hfill (k, xs) Hin).
    + rewrite <- (bucket_of_member g Hnd k xs Hin). apply Hb.
  - intros item Hin.
    assert (In item (bucket (label item) g)) as Hitem.
    { rewrite Hb. simpl. apply filter_In. split.
      - exact (Permutation_in _ (Permutation_sym Hfetch) Hin).
      - apply String.eqb_refl. }
    split; [exact Hitem|].
    apply member_of_bucket. intros E. rewrite E in Hitem. contradiction.
  - simpl in Hperm. exact (Permutation_trans Hperm Hfetch).
Qed.

Lemma plain_or_inherited (l : list MenuItem) :
  Forall (fun item => inherited (label item) = false) l
  \/ Exists (fun item => inherited (label item) = true) l.
Proof.
  induction l as [|item l [IH | IH]].
  - left. constructor.
  - destruct (inherited (label item)) eqn:E.
    + right. now left.
    + left. now constructor.
  - right. now right.
Qed.

(** X18.  When the table answers, the menu handlers throw exactly when some
    row's label is a name inherited from [Object.prototype]; otherwise
    they reply. *)
Theorem menu_throws_exactly_on_inherited_labels req w :
  db_error svc (DbSelect "menu") = false ->
  ((exists e, fst (IndexJs.get_api_menu svc req w) = Thrown e)
   <-> Exists (fun item => inherited (label item) = true) (menu w))
  /\ ((exists e, fst (ServerJs.get_api_menu svc req w) = Thrown e)
      <-> Exists (fun item => inherited (label item) = true) (menu w)).
Proof.
  intros Hdb.
  assert (Permutation (fetched w) (menu w)) as Hfetch
      by apply OrderBy.order_by_perm.
  destruct (plain_or_inherited (menu w)) as [Hplain | Hbad].
  - destruct (plain_menu_replies req w Hdb Hplain) as (g & _ & _ & Hi & Hs).
    assert (~ Exists (fun item => inherited (label item) = true) (menu w))
      as Hnone.
    { rewrite Exists_exists. intros (item & Hin & E).
      rewrite Forall_forall in Hplain. specialize (Hplain item Hin).
      congruence. }
    rewrite Hi, Hs.
    split; (split; [intros [e E]; discriminate E | intros E; contradiction]).
  - assert (Exists (fun item => inherited (label item) = true) (fetched w))
      as Hbad'.
    { rewrite Exists_exists in *. destruct Hbad as (item & Hin & E).
      exists item. split; [|exact E].
      exact (Permutation_in _ (Permutation_sym Hfetch) Hin). }
    pose proof (agrupar_throws (fetched w) [] (Forall_nil _) Hbad') as Hthrow.
    pose proof (groupedMenu_agrees (fetched w) []) as Hsame.
    rewrite Hthrow in Hsame.
    unfold IndexJs.get_api_menu, ServerJs.get_api_menu, select_menu.
    rewrite Hdb. change (order_by by_category_then_id _) with (fetched w).
    rewrite Hthrow.
    destruct (ServerJs.groupedMenu (fetched w) []) as [e|g'];
      [|contradiction].
    split; (split; [intros _; exact Hbad | intros _; eexists; reflexivity]).
Qed.

(** X19.  The menu route is public and read-only: whatever the request and
    whatever the outcome, the handler makes one call, the select on
    [menu]; it never consults the auth service and never writes.  When
    that select fails the reply is 500. *)
Theorem menu_route_only_reads_the_menu req w :
  snd (IndexJs.get_api_menu svc req w) = log (DbSelect "menu") w
  /\ snd (ServerJs.get_api_menu svc req w) = log (DbSelect "menu") w
  /\ (db_error svc (DbSelect "menu") = true ->
      fst (IndexJs.get_api_menu svc req w)
      = Sent (ErrorJson 500 "Falha ao carregar o cardápio.")
      /\ fst (ServerJs.get_api_menu svc req w)
         = Sent (ErrorJson 500 "Falha ao carregar o cardápio.")).
Proof.
  unfold IndexJs.get_api_menu, ServerJs.get_api_menu, select_menu.
  destruct (db_error svc (DbSelect "menu")).
  - repeat split.
  - destruct (IndexJs.agrupar _ []), (ServerJs.groupedMenu _ []);
      repeat split; discriminate.
Qed.

End WithService.

Import Fixtures.

(** Two drinks, a row without category and a row with an empty one. *)
Definition small_menu : World :=
  with_menu [ dish 3 (Some "Bebidas"); dish 2 None; dish 1 (Some "Bebidas");
              dish 4 (Some EmptyString) ].

Lemma menu_groups_witness :
  exists g,
    fst (IndexJs.get_api_menu demo (without_header []) small_menu)
    = Sent (MenuJson 200 g)
    /\ fst (ServerJs.get_api_menu demo (without_header []) small_menu)
       = Sent (MenuJson 200 g)
    /\ NoDup (map fst g)
    /\ (forall k xs, In (k, xs) g ->
          xs <> [] /\ xs = labelled k (fetched small_menu))
    /\ (forall item, In item (menu small_menu) ->
          In item (bucket (label item) g)
          /\ In (label item, bucket (label item) g) g)
    /\ Permutation (concat (map snd g)) (menu small_menu).
Proof.
  apply (menu_groups_partition_the_menu demo (without_header []) small_menu).
  - reflexivity.
  - repeat constructor.
Defined.

Example small_menu_groups :
  fst (IndexJs.get_api_menu demo (without_header []) small_menu)
  = Sent (MenuJson 200
            [ ("Outros", [dish 4 (Some EmptyString); dish 2 None]);
              ("Bebidas", [dish 1 (Some "Bebidas"); dish 3 (Some "Bebidas")])
            ]).
Proof. reflexivity. Qed.

Lemma menu_throws_witness :
  exists e,
    fst (ServerJs.get_api_menu demo (without_header [])
           (with_menu [dish 1 (Some "Bebidas"); dish 2 (Some "toString")]))
    = Thrown e.
Proof.
  apply (proj2 (menu_throws_exactly_on_inherited_labels demo
                  (without_header [])
                  (with_menu [dish 1 (Some "Bebidas");
                              dish 2 (Some "toString")])
                  eq_refl)).
  right. left. reflexivity.
Defined.

End MenuGroups.

(* ================================================================== *)
(** ** Reading the order history *)

Module Reading.
Import Json Js Supabase Submission History.

Section WithService.
Context `{NumberOps}.
Variable svc : Service.

(** X20.  The history of a customer depends on that customer's rows alone.
    When every row of the caller parses, the reply is 200 and lists the
    caller's rows, newest first, whatever the rows of other customers
    hold (text that is not JSON included); a customer without orders gets
    the empty list.  The handler made two calls, [getUser] and the
    select. *)
Theorem history_depends_on_own_rows_only req w t uid :
  resolved svc req t uid ->
  db_error svc (DbSelect "pedidos") = false ->
  readable uid w ->
  exists vs,
    ServerJs.get_api_pedidos svc req w
    = (Sent (PedidosJson 200 vs),
       log (DbSelect "pedidos") (log (AuthGetUser t) w))
    /\ map row vs = selected uid w
    /\ (owned uid w = [] -> vs = []).
Proof.
  intros Hr Hdb Hw.
  destruct (formatados_defined (selected uid w)) as [vs Hvs].
  { apply Forall_forall. intros c Hc.
    apply selected_in in Hc as (q & Hq & Hqu & ->). now apply Hw. }
  exists vs.
  unfold ServerJs.get_api_pedidos, ServerJs.guarded.
  rewrite (server_gate_opens svc req w t uid Hr).
  unfold ServerJs.historico_handler, select_pedidos. rewrite Hdb.
  change (map project _) with (selected uid w). rewrite Hvs.
  destruct (formatados_rows _ _ Hvs) as [Hm _].
  split; [reflexivity|]. split; [exact Hm|].
  intros Hnone. unfold selected in Hm. rewrite Hnone in Hm.
  destruct vs; [reflexivity | discriminate].
Qed.

(** X21.  When the select fails the history reply is 500 and carries no
    list. *)
Theorem failed_select_lists_nothing req w t uid :
  resolved svc req t uid ->
  db_error svc (DbSelect "pedidos") = true ->
  ServerJs.get_api_pedidos svc req w
  = (Sent (ErrorJson 500 "Falha ao carregar seus pedidos."),
     log (DbSelect "pedidos") (log (AuthGetUser t) w)).
Proof.
  intros Hr Hdb.
  unfold ServerJs.get_api_pedidos, ServerJs.guarded.
  rewrite (server_gate_opens svc req w t uid Hr).
  unfold ServerJs.historico_handler, select_pedidos. now rewrite Hdb.
Qed.

End WithService.

Import Fixtures.

(** Bia's only row is not JSON; Ana has one good row; Caio has none. *)
Definition shared_store : World :=
  with_pedidos [ stored 1 10 "u-bia" "{oops"; stored 2 20 "u-ana" "[2]" ].

(** A third session, of a customer who never ordered. *)
Definition with_caio : Service :=
  {| getUser := fun t =>
       if (t =? "tok-caio")%string then user_found "u-caio"
       else getUser demo t;
     signUp := signUp demo;
     signInWithPassword := signInWithPassword demo;
     db_error := db_error demo |}.

Lemma own_rows_witness :
  exists vs,
    ServerJs.get_api_pedidos demo ana_history shared_store
    = (Sent (PedidosJson 200 vs),
       log (DbSelect "pedidos") (log (AuthGetUser "tok-ana") shared_store))
    /\ map row vs = selected "u-ana" shared_store
    /\ (owned "u-ana" shared_store = [] -> vs = []).
Proof.
  apply (history_depends_on_own_rows_only demo ana_history shared_store
           "tok-ana" "u-ana" (ana_resolved [])).
  - reflexivity.
  - intros p [<- | [<- | []]] Hu; [discriminate Hu | discriminate].
Defined.

Example history_of_ana :
  fst (ServerJs.get_api_pedidos demo ana_history shared_store)
  = Sent (PedidosJson 200
            [listed (stored 2 20 "u-ana" "[2]") (JArr [JNum 2%Z])]).
Proof. reflexivity. Qed.

Example history_of_caio :
  fst (ServerJs.get_api_pedidos with_caio
         (with_header "Bearer tok-caio" []) shared_store)
  = Sent (PedidosJson 200 []).
Proof. reflexivity. Qed.

(** Every select fails. *)
Definition unreadable : Service :=
  {| getUser := getUser demo; signUp := signUp demo;
     signInWithPassword := signInWithPassword demo;
     db_error := fun c => match c with DbSelect _ => true | _ => false end |}.

Lemma failed_select_witness :
  ServerJs.get_api_pedidos unreadable ana_history shared_store
  = (Sent (ErrorJson 500 "Falha ao carregar seus pedidos."),
     log (DbSelect "pedidos") (log (AuthGetUser "tok-ana") shared_store)).
Proof.
  apply (failed_select_lists_nothing unreadable ana_history shared_store
           "tok-ana" "u-ana").
  - repeat split. discriminate.
  - reflexivity.
Defined.

End Reading.

(* ================================================================== *)
(** ** Sequences of requests

    Both entry points talk to the same tables.  [run] serves a list of
    requests, each through a route of one of the entry points, and gives
    the world reached. *)

Module Sessions.
Import Json Js Supabase Submission History.

Inductive Entry : Type :=
| ViaIndex (r : IndexJs.Route)
| ViaServer (r : ServerJs.Route).

Section WithService.
Context `{NumberOps}.
Variable svc : Service.

Definition serve (e : Entry) : Request -> World -> Outcome * World :=
  match e with
  | ViaIndex r => IndexJs.app svc r
  | ViaServer r => ServerJs.app svc r
  end.

Fixpoint run (calls : list (Entry * Request)) (w : World) : World :=
  match calls with
  | [] => w
  | (e, req) :: rest => run rest (snd (serve e req w))
  end.

(** [l'] is [l] with rows added at the end. *)
Definition grows {A : Type} (l l' : list A) : Prop :=
  exists added, l' = (l ++ added)%list.

Lemma grows_refl {A : Type} (l : list A) : grows l l.
Proof. exists []. now rewrite app_nil_r. Qed.

Lemma grows_one {A : Type} (l : list A) (x : A) : grows l (l ++ [x]).
Proof. now exists [x]. Qed.

Lemma grows_two {A : Type} (l : list A) (x y : A) :
  grows l ((l ++ [x]) ++ [y]).
Proof. exists [x; y]. now rewrite <- app_assoc. Qed.

Lemma grows_three {A : Type} (l : list A) (x y z : A) :
  grows l (((l ++ [x]) ++ [y]) ++ [z]).
Proof. exists [x; y; z]. now rewrite <- !app_assoc. Qed.

Lemma grows_trans {A : Type} (l1 l2 l3 : list A) :
  grows l1 l2 -> grows l2 l3 -> grows l1 l3.
Proof.
  intros [a ->] [b ->]. exists (a ++ b)%list. now rewrite app_assoc.
Qed.

(** Nothing stored is lost or changed: every table and the call trace
    only grow at the end, and the menu is the same. *)
Definition extends (w w' : World) : Prop :=
  grows (perfis w) (perfis w')
  /\ grows (pedidos w) (pedidos w')
  /\ grows (pedidos_finalizados w) (pedidos_finalizados w')
  /\ menu w' = menu w
  /\ grows (trace w) (trace w').

(** Case analysis on every test of a handler, innermost first. *)
Ltac break_matches :=
  repeat match goal with
    | |- context [match ?x with _ => _ end] =>
        lazymatch x with
        | context [match _ with _ => _ end] => fail
        | _ => destruct x eqn:?
        end
    end.

Ltac unfold_handlers :=
  unfold IndexJs.app, ServerJs.app,
    IndexJs.post_api_auth_register, ServerJs.post_api_auth_register,
    IndexJs.post_api_auth_login, ServerJs.post_api_auth_login,
    IndexJs.get_api_menu, ServerJs.get_api_menu,
    IndexJs.post_api_pedidos, ServerJs.post_api_pedidos,
    IndexJs.post_api_finalizar, ServerJs.get_api_pedidos,
    IndexJs.guarded, ServerJs.guarded,
    IndexJs.requireAuth, ServerJs.requireAuth,
    IndexJs.pedidos_handler, ServerJs.pedidos_handler,
    IndexJs.finalizar_handler, ServerJs.historico_handler,
    insert_perfil, insert_pedido, insert_finalizado,
    select_pedidos, select_menu.

Ltac grown :=
  first [ apply grows_refl | apply grows_one | apply grows_two
        | apply grows_three ].

Lemma serve_extends e req w : extends w (snd (serve e req w)).
Proof.
  destruct e as [[] | []]; cbn [serve]; unfold_handlers; break_matches;
    cbn [snd]; unfold extends, log;
    cbn [perfis pedidos pedidos_finalizados menu trace];
    repeat split; grown.
Qed.

Lemma extends_refl w : extends w w.
Proof. repeat split; apply grows_refl. Qed.

Lemma extends_trans w1 w2 w3 : extends w1 w2 -> extends w2 w3 -> extends w1 w3.
Proof.
  intros (Ha & Hb & Hc & Hd & He) (Ha' & Hb' & Hc' & Hd' & He').
  repeat split; try (eapply grows_trans; eassumption). congruence.
Qed.

(** X22.  No sequence of requests, through whichever routes of whichever entry
    point, removes or alters a stored profile, order or delivery order,
    or forgets a call it made: the tables and the trace of the world
    reached are those of the starting world with rows added at the end,
    and the menu is never written. *)
Theorem requests_only_append calls w : extends w (run calls w).
Proof.
  revert w. induction calls as [|[e req] calls IH]; intros w; simpl.
  - apply extends_refl.
  - apply extends_trans with (snd (serve e req w));
      [apply serve_extends | apply IH].
Qed.

(** *** What one request adds to the order tables *)

(** The identity [uid] was resolved by a [getUser] call of the trace. *)
Definition authenticated (w : World) (uid : string) : Prop :=
  exists t, In (AuthGetUser t) (trace w)
            /\ gu_error (getUser svc t) = None
            /\ gu_user (getUser svc t) = Some uid.

Lemma authenticated_later w w' uid :
  grows (trace w) (trace w') -> authenticated w uid -> authenticated w' uid.
Proof.
  intros [added E] (t & Hin & He & Hu). exists t. repeat split; auto.
  rewrite E. apply in_or_app. now left.
Qed.

(** What a request adds to [pedidos]: nothing, or one row owned by the
    identity the gate resolved, holding the serialised [items] of the
    request. *)
Lemma serve_adds_order e req w :
  pedidos (snd (serve e req w)) = pedidos w
  \/ exists p,
      pedidos (snd (serve e req w)) = (pedidos w ++ [p])%list
      /\ authenticated (snd (serve e req w)) (user_id (cols p))
      /\ items_json (cols p) = JSON_stringify (get "items" (body req))
      /\ truthy (get "items" (body req)) = true.
Proof.
  destruct e as [[] | []]; cbn [serve]; unfold_handlers; break_matches;
    cbn [snd]; unfold log; cbn [pedidos];
    try (left; reflexivity);
    right; eexists; (split; [reflexivity|]);
    cbn [cols user_id items_json];
    match goal with
    | Hv : (_ || _)%bool = false |- _ =>
        repeat (apply orb_false_elim in Hv; destruct Hv as [Hv ?]);
        apply negb_false_iff in Hv
    end;
    (split; [|split; [reflexivity | assumption]]);
    match goal with
    | Ht : token_of _ = Some ?t |- _ =>
        exists t; cbn [trace]; repeat split;
        [ apply in_or_app; left; apply in_or_app; right; now left
        | assumption | assumption ]
    end.
Qed.

Lemma serve_adds_delivery e req w :
  pedidos_finalizados (snd (serve e req w)) = pedidos_finalizados w
  \/ exists p,
      pedidos_finalizados (snd (serve e req w))
      = (pedidos_finalizados w ++ [p])%list
      /\ authenticated (snd (serve e req w)) (f_user_id (f_cols p)).
Proof.
  destruct e as [[] | []]; cbn [serve]; unfold_handlers; break_matches;
    cbn [snd]; unfold log; cbn [pedidos_finalizados];
    try (left; reflexivity);
    right; eexists; (split; [reflexivity|]);
    cbn [f_cols f_user_id];
    match goal with
    | Ht : token_of _ = Some ?t |- _ =>
        exists t; cbn [trace]; repeat split;
        [ apply in_or_app; left; apply in_or_app; right; now left
        | assumption | assumption ]
    end.
Qed.

(** Every stored order and delivery order belongs to an identity that
    [auth.getUser] returned, without error, for a token of the trace. *)
Definition owners_authenticated (w : World) : Prop :=
  (forall p, In p (pedidos w) -> authenticated w (user_id (cols p)))
  /\ (forall p, In p (pedidos_finalizados w) ->
                authenticated w (f_user_id (f_cols p))).

Lemma serve_keeps_owners e req w :
  owners_authenticated w -> owners_authenticated (snd (serve e req w)).
Proof.
  intros [Ho Hf].
  destruct (serve_extends e req w) as (_ & _ & _ & _ & Htrace).
  split; intros p Hin.
  - destruct (serve_adds_order e req w) as [E | (q & E & Hq & _)];
      rewrite E in Hin.
    + apply (authenticated_later w); auto.
    + apply in_app_or in Hin as [Hin | [<- | []]]; [|exact Hq].
      apply (authenticated_later w); auto.
  - destruct (serve_adds_delivery e req w) as [E | (q & E & Hq)];
      rewrite E in Hin.
    + apply (authenticated_later w); auto.
    + apply in_app_or in Hin as [Hin | [<- | []]]; [|exact Hq].
      apply (authenticated_later w); auto.
Qed.

(** X23.  Orders cannot be planted under an identity of the client's choice:
    starting from tables whose owners are authenticated (empty tables,
    for one), after any sequence of requests every stored order and
    delivery order is owned by an identity the auth service resolved from
    a token that was presented. *)
Theorem owners_stay_authenticated calls w :
  owners_authenticated w -> owners_authenticated (run calls w).
Proof.
  revert w. induction calls as [|[e req] calls IH]; intros w Hw; simpl.
  - exact Hw.
  - apply IH. now apply serve_keeps_owners.
Qed.

(** *** Routes that only read, and the way to the tables *)

Definition same_tables (w w' : World) : Prop :=
  perfis w' = perfis w
  /\ pedidos w' = pedidos w
  /\ pedidos_finalizados w' = pedidos_finalizados w
  /\ menu w' = menu w
  /\ next_id w' = next_id w.

(** X25.  Login, the menu and the order history never write: whatever the
    request and whatever the outcome (a reply of any status, or an
    exception), the tables afterwards are the tables before. *)
Theorem reading_routes_write_nothing req w :
  same_tables w (snd (IndexJs.post_api_auth_login svc req w))
  /\ same_tables w (snd (ServerJs.post_api_auth_login svc req w))
  /\ same_tables w (snd (IndexJs.get_api_menu svc req w))
  /\ same_tables w (snd (ServerJs.get_api_menu svc req w))
  /\ same_tables w (snd (ServerJs.get_api_pedidos svc req w)).
Proof.
  repeat apply conj; unfold_handlers; break_matches; repeat split.
Qed.

(** X26.  The guarded routes reach a table only behind a resolved token: for
    every request, either the gate resolves its token to an identity, or
    the world afterwards is the world before with at most one [getUser]
    call added, hence without any table call. *)
Theorem tables_are_behind_the_gate req w :
  (exists t uid, resolved svc req t uid)
  \/ forall route,
      In route [ IndexJs.post_api_pedidos svc; IndexJs.post_api_finalizar svc;
                 ServerJs.post_api_pedidos svc; ServerJs.get_api_pedidos svc ] ->
      snd (route req w) = w
      \/ exists t, snd (route req w) = log (AuthGetUser t) w.
Proof.
  unfold resolved.
  destruct (token_of (header "authorization" (headers req)))
    as [[|c t]|] eqn:Ht.
  - right. intros route Hin. left.
    repeat (destruct Hin as [<- | Hin]); try contradiction;
      unfold_handlers; rewrite Ht; reflexivity.
  - destruct (gu_error (getUser svc (String c t))) as [e|] eqn:He;
      [|destruct (gu_user (getUser svc (String c t))) as [uid|] eqn:Hu].
    + right. intros route Hin. right. exists (String c t).
      repeat (destruct Hin as [<- | Hin]); try contradiction;
        unfold_handlers; rewrite Ht, He; reflexivity.
    + left. exists (String c t), uid. repeat split; auto. discriminate.
    + right. intros route Hin. right. exists (String c t).
      repeat (destruct Hin as [<- | Hin]); try contradiction;
        unfold_handlers; rewrite Ht, He, Hu; reflexivity.
  - right. intros route Hin. left.
    repeat (destruct Hin as [<- | Hin]); try contradiction;
      unfold_handlers; rewrite Ht; reflexivity.
Qed.

End WithService.

Section Readable.
Context `{ops : NumberOps} `{!NumberLaws}.
Variable svc : Service.






End Readable.

Import Fixtures ZNumberFacts.

(** Ana orders through the second entry point, orders again through
    [index.js] with a forged owner in the body, asks for her history, and
    someone without a session tries to order. *)
Definition evening : list (Entry * Request) :=
  [ (ViaServer ServerJs.PostPedidos, Submission.ana_order);
    (ViaIndex IndexJs.PostPedidos, Submission.forged_order);
    (ViaServer ServerJs.GetPedidos, History.ana_history);
    (ViaIndex IndexJs.PostPedidos, without_header order_body) ].

Example evening_orders :
  map (fun p => (id p, user_id (cols p)))
    (pedidos (run demo evening empty_store))
  = [(1%Z, "u-ana"); (2%Z, "u-ana")].
Proof. reflexivity. Qed.

Lemma owners_witness : owners_authenticated demo (run demo evening empty_store).
Proof.
  apply (owners_stay_authenticated demo evening empty_store).
  split; intros p [].
Defined.


End Sessions.
